(** * dbbsoft-test: the CDK stack, the health server and the deployment contract

    A shallow embedding of
    - [lib/dbb_soft_test-stack.ts]: the constructor of [DbbSoftTestStack],
      which reads the version from [app/package.json] and declares the
      security group, the ECR repository, the image deployment, the IAM
      role and the Elastic Beanstalk application, version and environment;
    - [app/server.js]: the Express server with its [/health] route;
    and of the Deployment Applier the specification describes (section 4.2),
    which the repository leaves to the provisioning service. *)

From Stdlib Require Import String Ascii List Bool Arith NArith Lia Permutation.
From stdpp Require Import base decidable option list strings pretty gmap.

Import ListNotations.
Open Scope string_scope.
Open Scope list_scope.

Set Warnings "-register-all".

(** ** JavaScript values *)

Module JS.

(** The values [JSON.parse] produces, and [undefined]. A number carries its
    literal: nothing here computes with numbers, and [ToString] of a literal
    in canonical form (as [1], [42], [1.5]) is the literal itself. *)
Inductive Value : Type :=
| Undefined
| Null
| Bool (b : bool)
| Number (lit : string)
| Str (s : string)
| Array (items : list Value)
| Object (props : list (string * Value)).

(** What a [throw] carries. *)
Inductive Error : Type :=
| ENOENT (path : list string)       (* fs: no such file *)
| EACCES (path : list string)       (* fs: the file cannot be read *)
| SyntaxError (text : string)       (* JSON.parse *)
| TypeError (msg : string)          (* property access on null *)
| CdkError (msg : string).          (* thrown by a construct *)

Inductive Result (A : Type) : Type :=
| Ok (a : A)
| Throw (e : Error).
Arguments Ok {A} a.
Arguments Throw {A} e.

(** The double quote, for the JSON texts of this file. *)
Definition dq : string := String (ascii_of_nat 34) EmptyString.
Definition quoted (s : string) : string := dq +:+ s +:+ dq.

(** *** Property access: [o.key] *)

(** An object is the list of its own properties, in insertion order. *)
Fixpoint lookupProp (key : string) (props : list (string * Value)) : option Value :=
  match props with
  | [] => None
  | (k, v) :: rest => if String.eqb k key then Some v else lookupProp key rest
  end.

(** [o[key] = v]: an existing property keeps its place and takes the new
    value, a new one goes last. *)
Fixpoint setProp (key : string) (v : Value) (props : list (string * Value))
  : list (string * Value) :=
  match props with
  | [] => [(key, v)]
  | (k, x) :: rest =>
      if String.eqb k key then (k, v) :: rest else (k, x) :: setProp key v rest
  end.

(** [v.key] for a key that no prototype defines: [null] and [undefined] throw,
    an object answers with its own property, everything else with
    [undefined]. *)
Definition getProp (v : Value) (key : string) : Result Value :=
  match v with
  | Undefined => Throw (TypeError ("Cannot read properties of undefined (reading '" +:+ key +:+ "')"))
  | Null => Throw (TypeError ("Cannot read properties of null (reading '" +:+ key +:+ "')"))
  | Object props =>
      match lookupProp key props with
      | Some x => Ok x
      | None => Ok Undefined
      end
  | _ => Ok Undefined
  end.

(** *** [String(v)], the conversion a template literal applies *)

Definition joinWith (sep : string) (parts : list string) : string :=
  match parts with
  | [] => ""
  | p :: ps => fold_left (fun acc q => acc +:+ sep +:+ q) ps p
  end.

Fixpoint ToString (v : Value) : string :=
  match v with
  | Undefined => "undefined"
  | Null => "null"
  | Bool true => "true"
  | Bool false => "false"
  | Number lit => lit
  | Str s => s
  | Array items =>
      joinWith ","
        (map (fun x => match x with
                       | Undefined | Null => ""
                       | _ => ToString x
                       end) items)
  | Object _ => "[object Object]"
  end.

(** [a || b] on an optional string: the empty string is falsy. *)
Definition orElse (a : option string) (b : string) : string :=
  match a with
  | Some s => if String.eqb s "" then b else s
  | None => b
  end.

(** *** [JSON.parse] *)

Definition isWs (c : ascii) : bool :=
  let n := nat_of_ascii c in
  (n =? 32)%nat || (n =? 9)%nat || (n =? 10)%nat || (n =? 13)%nat.

Fixpoint skipWs (s : string) : string :=
  match s with
  | String c r => if isWs c then skipWs r else s
  | EmptyString => s
  end.

Definition isDigit (c : ascii) : bool :=
  let n := nat_of_ascii c in (48 <=? n)%nat && (n <=? 57)%nat.

Definition hexVal (c : ascii) : option nat :=
  let n := nat_of_ascii c in
  if (48 <=? n)%nat && (n <=? 57)%nat then Some (n - 48)
  else if (65 <=? n)%nat && (n <=? 70)%nat then Some (n - 55)
  else if (97 <=? n)%nat && (n <=? 102)%nat then Some (n - 87)
  else None.

(** The UTF-8 bytes of a code point below 0x10000 (strings are held as the
    bytes [readFileSync(path, 'utf8')] decoded them from). *)
Definition utf8 (cp : nat) : string :=
  let b n := String (ascii_of_nat n) EmptyString in
  if (cp <? 128)%nat then b cp
  else if (cp <? 2048)%nat then b (192 + cp / 64) +:+ b (128 + cp mod 64)
  else b (224 + cp / 4096) +:+ b (128 + (cp / 64) mod 64) +:+ b (128 + cp mod 64).

Definition hex4 (s : string) : option (nat * string) :=
  match s with
  | String a (String b (String c (String d r))) =>
      match hexVal a, hexVal b, hexVal c, hexVal d with
      | Some x, Some y, Some z, Some w => Some (((x * 16 + y) * 16 + z) * 16 + w, r)
      | _, _, _, _ => None
      end
  | _ => None
  end.

(** The characters of a string literal after its opening quote, up to the
    closing one. A raw control character ends the parse. *)
Fixpoint parseChars (s : string) (acc : string) : option (string * string) :=
  match s with
  | EmptyString => None
  | String c r =>
      let n := nat_of_ascii c in
      if (n =? 34)%nat then Some (acc, r)
      else if (n <? 32)%nat then None
      else if (n =? 92)%nat then
        match r with
        | String e r' =>
            let m := nat_of_ascii e in
            let lit k := parseChars r' (acc +:+ String (ascii_of_nat k) EmptyString) in
            if (m =? 34)%nat then lit 34          (* the quote *)
            else if (m =? 92)%nat then lit 92     (* the backslash *)
            else if (m =? 47)%nat then lit 47     (* the slash *)
            else if (m =? 98)%nat then lit 8      (* b *)
            else if (m =? 102)%nat then lit 12    (* f *)
            else if (m =? 110)%nat then lit 10    (* n *)
            else if (m =? 114)%nat then lit 13    (* r *)
            else if (m =? 116)%nat then lit 9     (* t *)
            else if (m =? 117)%nat then           (* u and four hex digits *)
              match r' with
              | String a (String b (String c (String d r''))) =>
                  match hex4 (String a (String b (String c (String d EmptyString)))) with
                  | Some (cp, _) => parseChars r'' (acc +:+ utf8 cp)
                  | None => None
                  end
              | _ => None
              end
            else None
        | EmptyString => None
        end
      else parseChars r (acc +:+ String c EmptyString)
  end.

Fixpoint takeDigits (s : string) : string * string :=
  match s with
  | String c r =>
      if isDigit c then let (ds, r') := takeDigits r in (String c ds, r') else ("", s)
  | EmptyString => ("", s)
  end.

Definition isChar (n : nat) (c : ascii) : bool := (nat_of_ascii c =? n)%nat.

(** A number literal: an optional minus, then [0] or digits that do not start
    with [0], then optionally a dot with digits, then optionally an exponent
    ([e] or [E], an optional sign, digits). *)
Definition parseNumber (s : string) : option (string * string) :=
  let (sign, s1) :=
    match s with
    | String c r => if isChar 45 c then ("-", r) else ("", s)
    | EmptyString => ("", s)
    end in
  let int :=
    match s1 with
    | String c r =>
        if isChar 48 c then Some ("0", r)
        else if isDigit c then Some (takeDigits s1)
        else None
    | EmptyString => None
    end in
  match int with
  | None => None
  | Some (ip, s2) =>
      let frac :=
        match s2 with
        | String c r =>
            if isChar 46 c then
              let (ds, r') := takeDigits r in
              if String.eqb ds "" then None else Some ("." +:+ ds, r')
            else Some ("", s2)
        | EmptyString => Some ("", s2)
        end in
      match frac with
      | None => None
      | Some (fp, s3) =>
          let expo :=
            match s3 with
            | String c r =>
                if isChar 101 c || isChar 69 c then
                  let (sg, r1) :=
                    match r with
                    | String d r' =>
                        if isChar 43 d || isChar 45 d
                        then (String d EmptyString, r') else ("", r)
                    | EmptyString => ("", r)
                    end in
                  let (ds, r2) := takeDigits r1 in
                  if String.eqb ds "" then None
                  else Some (String c EmptyString +:+ sg +:+ ds, r2)
                else Some ("", s3)
            | EmptyString => Some ("", s3)
            end in
          match expo with
          | None => None
          | Some (ep, s4) => Some (sign +:+ ip +:+ fp +:+ ep, s4)
          end
      end
  end.

Fixpoint stripPrefix (p s : string) : option string :=
  match p, s with
  | EmptyString, _ => Some s
  | String a p', String b s' => if Ascii.eqb a b then stripPrefix p' s' else None
  | String _ _, EmptyString => None
  end.

Definition parseLiteral (s : string) : option (Value * string) :=
  match stripPrefix "true" s with
  | Some r => Some (Bool true, r)
  | None =>
      match stripPrefix "false" s with
      | Some r => Some (Bool false, r)
      | None =>
          match stripPrefix "null" s with
          | Some r => Some (Null, r)
          | None =>
              match parseNumber s with
              | Some (lit, r) => Some (Number lit, r)
              | None => None
              end
          end
      end
  end.

(** The recursive descent over values, array elements and object members; a
    key that comes twice keeps its last value. [fuel] bounds the number of nested and consecutive calls; [JSON_parse]
    gives it twice the length of the text. *)
Fixpoint parseValue (fuel : nat) (s : string) {struct fuel} : option (Value * string) :=
  match fuel with
  | O => None
  | S f =>
      match skipWs s with
      | EmptyString => None
      | String c r =>
          if isChar 123 c then            (* an object *)
            match skipWs r with
            | String c' r' =>
                if isChar 125 c' then Some (Object [], r') else parseMembers f (skipWs r) []
            | EmptyString => None
            end
          else if isChar 91 c then        (* an array *)
            match skipWs r with
            | String c' r' =>
                if isChar 93 c' then Some (Array [], r') else parseElements f (skipWs r) []
            | EmptyString => None
            end
          else if isChar 34 c then        (* a string *)
            match parseChars r "" with
            | Some (str, r') => Some (Str str, r')
            | None => None
            end
          else parseLiteral (String c r)
      end
  end
with parseElements (fuel : nat) (s : string) (acc : list Value) {struct fuel}
  : option (Value * string) :=
  match fuel with
  | O => None
  | S f =>
      match parseValue f s with
      | Some (v, r) =>
          match skipWs r with
          | String c r' =>
              if isChar 44 c then parseElements f r' (v :: acc)
              else if isChar 93 c then Some (Array (rev (v :: acc)), r')
              else None
          | EmptyString => None
          end
      | None => None
      end
  end
with parseMembers (fuel : nat) (s : string) (acc : list (string * Value)) {struct fuel}
  : option (Value * string) :=
  match fuel with
  | O => None
  | S f =>
      match skipWs s with
      | String q r =>
          if isChar 34 q then
            match parseChars r "" with
            | Some (key, r1) =>
                match skipWs r1 with
                | String c r2 =>
                    if isChar 58 c then
                      match parseValue f r2 with
                      | Some (v, r3) =>
                          match skipWs r3 with
                          | String d r4 =>
                              if isChar 44 d then parseMembers f r4 (setProp key v acc)
                              else if isChar 125 d then Some (Object (setProp key v acc), r4)
                              else None
                          | EmptyString => None
                          end
                      | None => None
                      end
                    else None
                | EmptyString => None
                end
            | None => None
            end
          else None
      | EmptyString => None
      end
  end.

Definition JSON_parse (text : string) : Result Value :=
  match parseValue (2 * String.length text + 2) text with
  | Some (v, r) =>
      match skipWs r with
      | EmptyString => Ok v
      | String _ _ => Throw (SyntaxError text)
      end
  | None => Throw (SyntaxError text)
  end.

(** *** [JSON.stringify] *)

Definition hexDigit (n : nat) : ascii :=
  ascii_of_nat (if (n <? 10)%nat then 48 + n else 87 + n).

Definition escapeChar (c : ascii) : string :=
  let n := nat_of_ascii c in
  let bs := String (ascii_of_nat 92) EmptyString in
  if (n =? 34)%nat then bs +:+ dq
  else if (n =? 92)%nat then bs +:+ bs
  else if (n =? 8)%nat then bs +:+ "b"
  else if (n =? 12)%nat then bs +:+ "f"
  else if (n =? 10)%nat then bs +:+ "n"
  else if (n =? 13)%nat then bs +:+ "r"
  else if (n =? 9)%nat then bs +:+ "t"
  else if (n <? 32)%nat then
    bs +:+ "u00" +:+ String (hexDigit (n / 16)) (String (hexDigit (n mod 16)) EmptyString)
  else String c EmptyString.

Fixpoint escapeChars (s : string) : string :=
  match s with
  | EmptyString => EmptyString
  | String c r => escapeChar c +:+ escapeChars r
  end.

Definition quoteJSON (s : string) : string := dq +:+ escapeChars s +:+ dq.

(** [None] stands for the [undefined] that [JSON.stringify(undefined)]
    returns: a property with such a value is left out of its object, an array
    element is written [null]. *)
Fixpoint stringify (v : Value) : option string :=
  match v with
  | Undefined => None
  | Null => Some "null"
  | Bool true => Some "true"
  | Bool false => Some "false"
  | Number lit => Some lit
  | Str s => Some (quoteJSON s)
  | Array items =>
      Some ("[" +:+ joinWith ","
                     (map (fun x => match stringify x with
                                    | Some t => t
                                    | None => "null"
                                    end) items) +:+ "]")
  | Object props =>
      Some ("{" +:+ joinWith ","
                     (flat_map (fun kx => match stringify (snd kx) with
                                          | Some t => [quoteJSON (fst kx) +:+ ":" +:+ t]
                                          | None => []
                                          end) props) +:+ "}")
  end.

End JS.

(** ** The Node runtime: paths and files *)

Module Node.
Import JS.

Definition Path := list string.

(** [path.join(base, ...segs)], on paths held as their segments: [..] drops the
    segment before it, [.] and empty segments disappear. *)
Fixpoint normalize (segs : list string) (done : list string) : Path :=
  match segs with
  | [] => rev done
  | s :: r =>
      if String.eqb s ".." then normalize r (tl done)
      else if String.eqb s "." || String.eqb s "" then normalize r done
      else normalize r (s :: done)
  end.

Definition path_join (base : Path) (segs : list string) : Path :=
  normalize (base ++ segs) [].

Inductive Entry : Type :=
| NoEntry
| Unreadable
| File (content : string).

Definition FileSystem := Path -> Entry.

(** [fs.readFileSync(path, 'utf8')] *)
Definition readFileSync (fs : FileSystem) (p : Path) : Result string :=
  match fs p with
  | NoEntry => Throw (ENOENT p)
  | Unreadable => Throw (EACCES p)
  | File content => Ok content
  end.

(** [require(file)] of a [.json] file: read, then [JSON.parse]. *)
Definition require_json (fs : FileSystem) (p : Path) : Result Value :=
  match readFileSync fs p with
  | Ok text => JSON_parse text
  | Throw e => Throw e
  end.

End Node.

(** ** The CDK constructs the stack uses *)

Module CDK.
Import JS Node.

(** A CDK string is literal text interleaved with references that the
    provisioning service fills in at deployment: [construct.ref] and the
    attribute getters ([securityGroupId], [repositoryUri], [roleName]). *)
Inductive Frag : Type :=
| Lit (s : string)
| Ref (id : string)
| GetAtt (id att : string).

Definition CfnString := list Frag.

Definition lit (s : string) : CfnString := [Lit s].

Definition fragTarget (f : Frag) : list string :=
  match f with
  | Lit _ => []
  | Ref id => [id]
  | GetAtt id _ => [id]
  end.

(** The constructs a string refers to. *)
Definition targets (s : CfnString) : list string := flat_map fragTarget s.

Record Subnet := { subnetId : string }.
Record Vpc := { vpcId : string; publicSubnets : list Subnet }.

Inductive Protocol := TCP | UDP.
Record Port := { protocol : Protocol; fromPort : N; toPort : N }.
Record Peer := { cidrIp : string }.
Record IngressRule := { peer : Peer; connection : Port; ruleDescription : string }.

Definition Port_tcp (p : N) : Port := {| protocol := TCP; fromPort := p; toPort := p |}.
Definition Peer_anyIpv4 : Peer := {| cidrIp := "0.0.0.0/0" |}.

Inductive RemovalPolicy := DESTROY | RETAIN | SNAPSHOT | RETAIN_ON_UPDATE_OR_DELETE.

Record OptionSetting :=
  { namespace : string; optionName : string; value : CfnString }.

(** The properties each construct of the stack is given. *)
Inductive Resource : Type :=
| LookedUpVpc (vpc : Vpc)
| SecurityGroup (vpcId : string) (description : string) (allowAllOutbound : bool)
    (ingress : list IngressRule)
| Repository (repositoryName : string) (removalPolicy : RemovalPolicy)
    (emptyOnDelete : bool)
| DockerImageAsset (directory : Path) (platform : string)
| ECRDeployment (src dest : CfnString)
| Asset (path : Path)
| Role (assumedBy : string) (managedPolicies : list string)
| CfnInstanceProfile (roles : list CfnString)
| CfnApplication (applicationName : option string)
| CfnApplicationVersion (applicationName : string) (s3Bucket s3Key : CfnString)
    (description : string)
| CfnEnvironment (environmentName applicationName solutionStackName : string)
    (versionLabel : CfnString) (optionSettings : list OptionSetting).

(** A child of the stack: its construct id, its properties and the
    dependencies declared with [addDependency]. *)
Record Construct :=
  { id : string; resource : Resource; dependsOn : list string }.

#[global] Instance Frag_eq_dec : EqDecision Frag.
Proof. solve_decision. Defined.
#[global] Instance Subnet_eq_dec : EqDecision Subnet.
Proof. solve_decision. Defined.
#[global] Instance Vpc_eq_dec : EqDecision Vpc.
Proof. solve_decision. Defined.
#[global] Instance Protocol_eq_dec : EqDecision Protocol.
Proof. solve_decision. Defined.
#[global] Instance Port_eq_dec : EqDecision Port.
Proof. solve_decision. Defined.
#[global] Instance Peer_eq_dec : EqDecision Peer.
Proof. solve_decision. Defined.
#[global] Instance IngressRule_eq_dec : EqDecision IngressRule.
Proof. solve_decision. Defined.
#[global] Instance RemovalPolicy_eq_dec : EqDecision RemovalPolicy.
Proof. solve_decision. Defined.
#[global] Instance OptionSetting_eq_dec : EqDecision OptionSetting.
Proof. solve_decision. Defined.
#[global] Instance Resource_eq_dec : EqDecision Resource.
Proof. solve_decision. Defined.
#[global] Instance Construct_eq_dec : EqDecision Construct.
Proof. solve_decision. Defined.

(** *** The stack under construction *)

Record Stack :=
  { children : list Construct;   (* in construction order *)
    stdout : list string }.      (* what [console.log] wrote *)

Definition emptyStack : Stack := {| children := []; stdout := [] |}.

(** A statement of the constructor: it changes the stack and returns a value,
    or throws. *)
Definition M (A : Type) : Type := Stack -> Result (A * Stack).

Definition ret {A} (a : A) : M A := fun st => Ok (a, st).

Definition bind {A B} (m : M A) (k : A -> M B) : M B :=
  fun st =>
    match m st with
    | Ok (a, st') => k a st'
    | Throw e => Throw e
    end.

Definition throw {A} (e : Error) : M A := fun _ => Throw e.

Definition lift {A} (r : Result A) : M A :=
  fun st => match r with Ok a => Ok (a, st) | Throw e => Throw e end.

Declare Scope cdk_scope.
Delimit Scope cdk_scope with cdk.
Notation "x <- m ;; k" := (bind m (fun x => k))
  (at level 100, m at next level, right associativity) : cdk_scope.
Notation "m ;;; k" := (bind m (fun _ => k))
  (at level 100, right associativity) : cdk_scope.
Open Scope cdk_scope.

Definition findChild (name : string) (cs : list Construct) : option Construct :=
  find (fun c => String.eqb (id c) name) cs.

(** [new X(this, name, props)]: a second child of the same name is refused. *)
Definition addChild (name : string) (r : Resource) : M unit :=
  fun st =>
    match findChild name (children st) with
    | Some _ =>
        Throw (CdkError ("There is already a Construct with name '" +:+ name +:+ "'"))
    | None =>
        Ok (tt, {| children := children st ++ [{| id := name; resource := r; dependsOn := [] |}];
                   stdout := stdout st |})
    end.

(** A method of a construct that changes it in place. *)
Definition updateChild (name : string) (f : Construct -> Construct) : M unit :=
  fun st =>
    Ok (tt, {| children := map (fun c => if String.eqb (id c) name then f c else c)
                               (children st);
               stdout := stdout st |}).

Definition console_log (line : string) : M unit :=
  fun st => Ok (tt, {| children := children st; stdout := stdout st ++ [line] |}).

(** *** What the constructor reads from outside *)

(** [props.env], set in [bin] from [CDK_DEFAULT_ACCOUNT] and
    [CDK_DEFAULT_REGION]; either may be undefined. *)
Record StackProps := { account : option string; region : option string }.

(** Where CDK's asset staging puts the image built from [app/] and the
    zipped [app/] directory. *)
Record Staging :=
  { imageUri : string; s3BucketName : string; s3ObjectKey : string }.

Record World :=
  { fs : FileSystem;          (* the files of the checkout *)
    dirname : Path;           (* [__dirname] of the stack's module *)
    defaultVpc : Vpc;         (* what the VPC lookup answers *)
    staging : Staging }.

(** *** The constructs *)

(** [ec2.Vpc.fromLookup]: a context lookup, which needs the stack's account
    and region. *)
Definition Vpc_fromLookup (props : StackProps) (w : World) (name : string) : M Vpc :=
  match account props, region props with
  | Some _, Some _ => addChild name (LookedUpVpc (defaultVpc w)) ;;; ret (defaultVpc w)
  | _, _ =>
      throw (CdkError ("Cannot retrieve value from context provider vpc-provider since "
                       +:+ "account/region are not specified at the stack level"))
  end.

Definition new_SecurityGroup (name : string) (vpc : Vpc) (description : string)
  (allowAllOutbound : bool) : M string :=
  addChild name (SecurityGroup (vpcId vpc) description allowAllOutbound []) ;;; ret name.

Definition addIngressRule (sg : string) (p : Peer) (c : Port) (description : string) : M unit :=
  updateChild sg (fun k =>
    match resource k with
    | SecurityGroup v d o rules =>
        {| id := id k;
           resource := SecurityGroup v d o
                         (rules ++ [{| peer := p; connection := c;
                                       ruleDescription := description |}]);
           dependsOn := dependsOn k |}
    | _ => k
    end).

Definition securityGroupId (sg : string) : CfnString := [GetAtt sg "GroupId"].

Definition new_Repository (name repositoryName : string) (removalPolicy : RemovalPolicy)
  (emptyOnDelete : bool) : M string :=
  addChild name (Repository repositoryName removalPolicy emptyOnDelete) ;;; ret name.

Definition repositoryUri (repo : string) : CfnString := [GetAtt repo "RepositoryUri"].

Definition new_DockerImageAsset (w : World) (name : string) (directory : Path)
  (platform : string) : M CfnString :=
  addChild name (DockerImageAsset directory platform) ;;; ret (lit (imageUri (staging w))).

Definition new_ECRDeployment (name : string) (src dest : CfnString) : M unit :=
  addChild name (ECRDeployment src dest).

Definition new_Asset (w : World) (name : string) (path : Path) : M (CfnString * CfnString) :=
  addChild name (Asset path) ;;;
  ret (lit (s3BucketName (staging w)), lit (s3ObjectKey (staging w))).

Definition new_Role (name : string) (assumedBy : string) : M string :=
  addChild name (Role assumedBy []) ;;; ret name.

Definition addManagedPolicy (role : string) (policy : string) : M unit :=
  updateChild role (fun k =>
    match resource k with
    | Role a ps =>
        {| id := id k; resource := Role a (ps ++ [policy]); dependsOn := dependsOn k |}
    | _ => k
    end).

Definition roleName (role : string) : CfnString := [Ref role].

Definition new_CfnInstanceProfile (name : string) (roles : list CfnString) : M string :=
  addChild name (CfnInstanceProfile roles) ;;; ret name.

Definition new_CfnApplication (name : string) (applicationName : option string)
  : M (string * option string) :=
  addChild name (CfnApplication applicationName) ;;; ret (name, applicationName).

Definition new_CfnApplicationVersion (name applicationName : string)
  (s3Bucket s3Key : CfnString) (description : string) : M string :=
  addChild name (CfnApplicationVersion applicationName s3Bucket s3Key description) ;;;
  ret name.

Definition addDependency (c target : string) : M unit :=
  updateChild c (fun k =>
    {| id := id k; resource := resource k; dependsOn := dependsOn k ++ [target] |}).

Definition new_CfnEnvironment (name environmentName applicationName solutionStackName : string)
  (versionLabel : CfnString) (optionSettings : list OptionSetting) : M string :=
  addChild name
    (CfnEnvironment environmentName applicationName solutionStackName versionLabel
       optionSettings) ;;;
  ret name.

(** [construct.ref] *)
Definition ref (c : string) : CfnString := [Ref c].

(** A template literal with two holes and a colon between. *)
Definition imageName (uri : CfnString) (tag : Value) : CfnString :=
  uri ++ lit ":" ++ lit (ToString tag).

End CDK.

(** ** [lib/dbb_soft_test-stack.ts] *)

Module Infra.
Import JS Node CDK.

(** The constructor of [DbbSoftTestStack]. *)
Definition DbbSoftTestStack (props : StackProps) (w : World) : M unit :=
  vpc <- Vpc_fromLookup props w "DefaultVPC" ;;
  mySecurityGroup <- new_SecurityGroup "WebSg" vpc "Allow HTTP access" true ;;
  addIngressRule mySecurityGroup Peer_anyIpv4 (Port_tcp 80) "Allow HTTP traffic" ;;;
  let packageJsonPath := path_join (dirname w) [".."; "app"; "package.json"] in
  text <- lift (readFileSync (fs w) packageJsonPath) ;;
  packageJson <- lift (JSON_parse text) ;;
  appVersion <- lift (getProp packageJson "version") ;;
  console_log ("🚀 Preparing to deploy version: " +:+ ToString appVersion) ;;;
  repo <- new_Repository "MyWebAppRepo" "dbbsoftt-repo" DESTROY true ;;
  dockerAsset <- new_DockerImageAsset w "MyWebAppImage"
                   (path_join (dirname w) [".."; "app"]) "linux/amd64" ;;
  new_ECRDeployment "DeployDockerImage" dockerAsset
    (imageName (repositoryUri repo) appVersion) ;;;
  appSourceZip <- new_Asset w "AppSourceZip" (path_join (dirname w) [".."; "app"]) ;;
  ebInstanceRole <- new_Role "EBInstanceRole" "ec2.amazonaws.com" ;;
  addManagedPolicy ebInstanceRole "AWSElasticBeanstalkWebTier" ;;;
  addManagedPolicy ebInstanceRole "AmazonEC2ContainerRegistryReadOnly" ;;;
  ebInstanceProfile <- new_CfnInstanceProfile "EBInstanceProfile" [roleName ebInstanceRole] ;;
  app <- new_CfnApplication "MyEBApp" (Some "DbbSoft") ;;
  appVersionProps <- new_CfnApplicationVersion "MyAppVersion"
                       (orElse (snd app) "DbbSoft")
                       (fst appSourceZip) (snd appSourceZip)
                       ("Version " +:+ ToString appVersion) ;;
  addDependency appVersionProps (fst app) ;;;
  env <- new_CfnEnvironment "MyEBEnv" "DbbSoftEnv" (orElse (snd app) "DbbSoft")
           "64bit Amazon Linux 2023 v4.8.0 running Docker"
           (ref appVersionProps)
           [ {| namespace := "aws:ec2:vpc"; optionName := "VPCId";
                value := lit (vpcId vpc) |};
             {| namespace := "aws:ec2:vpc"; optionName := "Subnets";
                value := lit (joinWith "," (map subnetId (publicSubnets vpc))) |};
             {| namespace := "aws:ec2:vpc"; optionName := "AssociatePublicIpAddress";
                value := lit "true" |};
             {| namespace := "aws:autoscaling:launchconfiguration";
                optionName := "IamInstanceProfile"; value := ref ebInstanceProfile |};
             {| namespace := "aws:autoscaling:launchconfiguration";
                optionName := "InstanceType"; value := lit "t3.micro" |};
             {| namespace := "aws:autoscaling:launchconfiguration";
                optionName := "SecurityGroups"; value := securityGroupId mySecurityGroup |};
             {| namespace := "aws:elasticbeanstalk:environment";
                optionName := "EnvironmentType"; value := lit "SingleInstance" |};
             {| namespace := "aws:elasticbeanstalk:application:environment";
                optionName := "AWS_EB_DOCKER_IMAGE_URI";
                value := imageName (repositoryUri repo) appVersion |} ] ;;
  ret tt.

(** [bin]: [new cdk.App()], then [new DbbSoftTestStack(app, ...)]. The
    descriptor is the stack the constructor leaves; when it throws there is
    none. *)
Definition build (props : StackProps) (w : World) : Result Stack :=
  match DbbSoftTestStack props w emptyStack with
  | Ok (_, st) => Ok st
  | Throw e => Throw e
  end.

End Infra.

(** ** [app/server.js] *)

Module Server.
Import JS Node.

Inductive Method := GET | HEAD | POST | PUT | DELETE | PATCH | OPTIONS.

#[global] Instance Method_eq_dec : EqDecision Method.
Proof. solve_decision. Defined.

Record Request :=
  { method : Method;
    path : string;                       (* the path of the URL, without the query *)
    query : string;
    headers : list (string * string);
    body : string }.

Record Response :=
  { status : N; contentType : string; payload : string }.

(** [res.json(v)] and [res.send(text)] on a fresh response, whose status is
    200. *)
Definition res_json (v : Value) : Response :=
  {| status := 200;
     contentType := "application/json; charset=utf-8";
     payload := match stringify v with Some t => t | None => "" end |}.

Definition res_send (text : string) : Response :=
  {| status := 200; contentType := "text/html; charset=utf-8"; payload := text |}.

Record Route :=
  { verb : Method; pattern : string; handler : Request -> Response }.

Record App :=
  { routes : list Route;          (* in registration order *)
    listening : option N;
    console : list string }.

Definition express : App := {| routes := []; listening := None; console := [] |}.

Definition app_get (pattern : string) (h : Request -> Response) (app : App) : App :=
  {| routes := routes app ++ [{| verb := GET; pattern := pattern; handler := h |}];
     listening := listening app;
     console := console app |}.

Definition app_listen (port : N) (line : string) (app : App) : App :=
  {| routes := routes app; listening := Some port; console := console app ++ [line] |}.

Definition PORT : N := 8080.

Definition decimal (n : N) : string := pretty n.

(** The module, top to bottom: it answers the running application, with the
    [VERSION] it read, or throws while loading the manifest. *)
Definition server (fs : FileSystem) (dir : Path) : Result (Value * App) :=
  match require_json fs (path_join dir ["."; "package.json"]) with
  | Throw e => Throw e
  | Ok packageJson =>
      match getProp packageJson "version" with
      | Throw e => Throw e
      | Ok VERSION =>
          let app := express in
          let app :=
            app_get "/health"
              (fun req => res_json (Object [("status", Str "healthy"); ("version", VERSION)]))
              app in
          let app :=
            app_get "/"
              (fun req =>
                 res_send ("Craneodev test app for DBB Software. The app is running. Version: "
                           +:+ ToString VERSION))
              app in
          let app :=
            app_listen PORT
              ("Server is running on port " +:+ decimal PORT +:+ ", version "
               +:+ ToString VERSION)
              app in
          Ok (VERSION, app)
      end
  end.

(** Express matches paths without regard to letter case and with an
    optional trailing slash, and gives a HEAD request to the GET route. *)
Definition lower (c : ascii) : ascii :=
  let n := nat_of_ascii c in
  if (65 <=? n)%nat && (n <=? 90)%nat then ascii_of_nat (n + 32) else c.

Fixpoint lowercase (s : string) : string :=
  match s with
  | EmptyString => EmptyString
  | String c r => String (lower c) (lowercase r)
  end.

Fixpoint dropSlash (s : string) : string :=
  match s with
  | EmptyString => EmptyString
  | String c EmptyString => if isChar 47 c then EmptyString else s
  | String c r => String c (dropSlash r)
  end.

Definition pathMatches (pattern path : string) : bool :=
  String.eqb (dropSlash (lowercase path)) (dropSlash (lowercase pattern)).

Definition verbMatches (v m : Method) : bool :=
  bool_decide (v = m) || (bool_decide (v = GET) && bool_decide (m = HEAD)).

(** The router: the first route registered for the method and the path
    answers, without a body when the request is a HEAD; [None] when no route
    of the application matches (Express then answers itself, with 404). *)
Definition dispatch (app : App) (req : Request) : option Response :=
  match find (fun r => verbMatches (verb r) (method req) && pathMatches (pattern r) (path req))
             (routes app) with
  | Some r =>
      let resp := handler r req in
      Some (if bool_decide (method req = HEAD)
            then {| status := status resp; contentType := contentType resp; payload := "" |}
            else resp)
  | None => None
  end.

End Server.

(** ** The Deployment Applier *)

Module Applier.
Import JS CDK.

(** The constructs the provisioning service creates. The looked-up VPC
    exists already, and the two assets are published before deployment. *)
Definition provisioned (c : Construct) : bool :=
  match resource c with
  | LookedUpVpc _ | DockerImageAsset _ _ | Asset _ => false
  | _ => true
  end.

(** The descriptor: the resources of the stack, in construction order. *)
Definition descriptor (st : Stack) : list Construct := filter provisioned (children st).

(** The depends-on edges of a construct: the constructs its properties refer
    to, and those given to [addDependency]. *)
Definition references (r : Resource) : list string :=
  match r with
  | ECRDeployment src dest => targets src ++ targets dest
  | CfnInstanceProfile roles => flat_map targets roles
  | CfnApplicationVersion _ bucket key _ => targets bucket ++ targets key
  | CfnEnvironment _ _ _ label options => targets label ++ flat_map (fun o => targets (value o)) options
  | _ => []
  end.

Definition deps (c : Construct) : list string := references (resource c) ++ dependsOn c.

Definition ids (l : list Construct) : list string := map id l.

(** Modelled from the spec: the topological sort of section 4.2 ("resolves
    creation order via topological sort over the depends-on edges"), which
    the repository leaves to the provisioning service. A resource is ready
    once everything it depends on has been placed; the first ready resource
    of the input goes next. *)
Definition ready (placed : list string) (c : Construct) : bool :=
  forallb (fun d => existsb (String.eqb d) placed) (deps c).

(** Modelled from the spec: the step of that sort, which is not in the
    repository: the first pending resource that is ready, and the others. *)
Fixpoint pick (placed : list string) (pending : list Construct)
  : option (Construct * list Construct) :=
  match pending with
  | [] => None
  | c :: rest =>
      if ready placed c then Some (c, rest)
      else match pick placed rest with
           | Some (x, rest') => Some (x, c :: rest')
           | None => None
           end
  end.

(** Modelled from the spec: the loop of that sort, which is not in the
    repository. [placed] holds the resources already ordered, the latest
    first; each round places one resource, so the length of the input is
    fuel enough. *)
Fixpoint order (fuel : nat) (pending placed : list Construct) : option (list Construct) :=
  match pending with
  | [] => Some (rev placed)
  | _ :: _ =>
      match fuel with
      | O => None
      | S f =>
          match pick (ids placed) pending with
          | Some (c, rest) => order f rest (c :: placed)
          | None => None
          end
      end
  end.

(** Modelled from the spec: the creation order of section 4.2, which the
    repository does not compute. [None]: a cycle, or a reference to a
    resource the descriptor lacks. *)
Definition creationOrder (d : list Construct) : option (list Construct) :=
  order (length d) d [].

(** Modelled from the spec: the provisioning API of section 6, an external
    collaborator addressed by resource name, and the errors of section 7 it
    answers with. *)
Inductive Op := Create | Update.
Record Call := { op : Op; target : Construct }.
Inductive Failure := ResourceConflictError | SubmissionError.

#[global] Instance Op_eq_dec : EqDecision Op.
Proof. solve_decision. Defined.
#[global] Instance Call_eq_dec : EqDecision Call.
Proof. solve_decision. Defined.

(** What the service holds: for each resource name, the resource as it was
    last submitted. *)
Abbreviation Cloud := (gmap string Construct).

(** The service accepts a call ([None]) or rejects it. *)
Definition Api := Cloud -> Call -> option Failure.

Inductive Outcome :=
| Applied
| Failed (name : string) (operation : Op) (why : Failure)
| Unorderable.

(** Modelled from the spec: the call a resource needs, which the repository
    leaves to the provisioning service ("re-applying an unchanged descriptor
    must not recreate unchanged resources"): a resource the service does not
    hold is created, one it holds with other properties is updated, one it
    holds unchanged needs nothing. *)
Definition needed (cloud : Cloud) (c : Construct) : option Op :=
  match cloud !! id c with
  | None => Some Create
  | Some held => if decide (held = c) then None else Some Update
  end.

(** Modelled from the spec: the submission pass of section 4.2, which is not
    in the repository ("submits creation/update calls to the external
    provisioning API in that order", "submission failure for any resource
    aborts the remaining sequence and surfaces the first failure without
    partial silent retries"). *)
Fixpoint submit (api : Api) (todo : list Construct) (cloud : Cloud) (log : list Call)
  : Cloud * list Call * Outcome :=
  match todo with
  | [] => (cloud, log, Applied)
  | c :: rest =>
      match needed cloud c with
      | None => submit api rest cloud log
      | Some o =>
          let k := {| op := o; target := c |} in
          match api cloud k with
          | None => submit api rest (<[id c := c]> cloud) (log ++ [k])
          | Some why => (cloud, log ++ [k], Failed (id c) o why)
          end
      end
  end.

(** Modelled from the spec: the effect of accepted calls on the service
    (section 6, "accepts create/update ... operations for each entity",
    "addressed by resource name"), which is outside the repository: the
    state the calls leave when the service accepts each of them, [None] when
    it rejects one. *)
Fixpoint replay (api : Api) (cloud : Cloud) (ks : list Call) : option Cloud :=
  match ks with
  | [] => Some cloud
  | k :: rest =>
      match api cloud k with
      | None => replay api (<[id (target k) := target k]> cloud) rest
      | Some _ => None
      end
  end.

(** [a] comes strictly before [b] in a creation order. *)
Definition precedes (a b : string) (names : list string) : Prop :=
  exists i j, names !! i = Some a /\ names !! j = Some b /\ i < j.

(** Every resource of a creation order comes after all it depends on. *)
Definition Ordered (o : list Construct) : Prop :=
  forall before c after, o = before ++ c :: after ->
    forall d, In d (deps c) -> In d (ids before).

(** The resources placed so far (the latest first) each came after all they
    depend on. *)
Inductive WellPlaced : list Construct -> Prop :=
| wp_nil : WellPlaced []
| wp_cons c l :
    WellPlaced l -> (forall d, In d (deps c) -> In d (ids l)) -> WellPlaced (c :: l).

(** Each dependency of a pending resource is placed already, or is a pending
    resource of lower rank: the graph is closed and has no cycle. *)
Definition Grounded (rank : Construct -> nat) (pending placed : list Construct) : Prop :=
  forall c, In c pending -> forall d, In d (deps c) ->
    In d (ids placed) \/ exists c', In c' pending /\ id c' = d /\ rank c' < rank c.

Definition groundedb (rank : Construct -> nat) (l : list Construct) : bool :=
  forallb (fun c =>
    forallb (fun d => existsb (fun c' => String.eqb (id c') d && (rank c' <? rank c)%nat) l)
            (deps c)) l.

(** Modelled from the spec: the Deployment Applier of section 4.2, which is
    not in the repository: order the descriptor, then submit it. *)
Definition apply (api : Api) (d : list Construct) (cloud : Cloud)
  : Cloud * list Call * Outcome :=
  match creationOrder d with
  | Some o => submit api o cloud []
  | None => (cloud, [], Unorderable)
  end.

End Applier.

(** ** Build, then apply *)

Module Pipeline.
Import JS CDK Applier.

(** Modelled from the spec: the composition of section 2 ("two logical
    components, composed sequentially at deployment time"), which the
    repository leaves to the deployment tool: the applier is given the
    descriptor the builder produced, and nothing when the builder threw. *)
Definition deploy (props : StackProps) (w : World) (api : Api) (cloud : Cloud)
  : Result (Cloud * list Call * Outcome) :=
  match Infra.build props w with
  | Ok st => Ok (apply api (descriptor st) cloud)
  | Throw e => Throw e
  end.

(** The calls a run issued. *)
Definition calls (run : Result (Cloud * list Call * Outcome)) : list Call :=
  match run with
  | Ok (_, log, _) => log
  | Throw _ => []
  end.

End Pipeline.

(** ** The deployed stack: references resolved, and teardown *)

Module Aws.
Import JS CDK.

(** The account and the region the stack is deployed to, and the physical
    identifiers the service generates for the other references. *)
Record Target :=
  { accountId : string;
    regionName : string;
    physical : string -> string -> string }.

Definition registryHost (t : Target) : string :=
  accountId t +:+ ".dkr.ecr." +:+ regionName t +:+ ".amazonaws.com".

(** The value of a reference after deployment. The URI of a repository is
    the registry host, a slash and the repository name, as in the example the
    stack's comment on [AWS_EB_DOCKER_IMAGE_URI] gives
    ([123456789.dkr.ecr.us-east-1.amazonaws.com/dbbsoftt-repo:1.0.0]). *)
Definition resolveFrag (t : Target) (st : Stack) (f : Frag) : string :=
  match f with
  | Lit s => s
  | Ref c => physical t c "Ref"
  | GetAtt c att =>
      match findChild c (children st) with
      | Some k =>
          match resource k with
          | Repository name _ _ =>
              if String.eqb att "RepositoryUri" then registryHost t +:+ "/" +:+ name
              else physical t c att
          | _ => physical t c att
          end
      | None => physical t c att
      end
  end.

Definition resolve (t : Target) (st : Stack) (s : CfnString) : string :=
  fold_right (fun f acc => resolveFrag t st f +:+ acc) "" s.

(** The images a registry stores: for each repository name, its tags. *)
Abbreviation Registry := (gmap string (list string)).

(** Destroying the stack, as the comments on the repository describe
    [removalPolicy] and [emptyOnDelete]: DESTROY deletes the repository with
    the stack, [emptyOnDelete] deletes all its images first. A repository
    that is not emptied can only be deleted when it holds no image; RETAIN
    leaves everything in place. *)
Definition destroyChild (c : Construct) (reg : Registry) : Registry :=
  match resource c with
  | Repository name DESTROY true => delete name reg
  | Repository name DESTROY false =>
      match reg !! name with
      | Some (_ :: _) => reg
      | _ => delete name reg
      end
  | _ => reg
  end.

Definition destroy (st : Stack) (reg : Registry) : Registry :=
  fold_right destroyChild reg (children st).

End Aws.

(** ** Reading a descriptor *)

Module Descriptor.
Import JS CDK.

Definition isEnvironment (c : Construct) : bool :=
  match resource c with CfnEnvironment _ _ _ _ _ => true | _ => false end.

(** The ComputeEnvironments of a descriptor. *)
Definition environments (st : Stack) : list Construct := filter isEnvironment (children st).

Definition optionValue (ns name : string) (c : Construct) : option CfnString :=
  match resource c with
  | CfnEnvironment _ _ _ _ options =>
      match find (fun o => String.eqb (namespace o) ns && String.eqb (optionName o) name)
                 options with
      | Some o => Some (value o)
      | None => None
      end
  | _ => None
  end.

(** The image a ComputeEnvironment pulls. *)
Definition imageReference (c : Construct) : option CfnString :=
  optionValue "aws:elasticbeanstalk:application:environment" "AWS_EB_DOCKER_IMAGE_URI" c.

(** The references the image is pushed under. *)
Definition pushDestinations (st : Stack) : list CfnString :=
  flat_map (fun c => match resource c with
                     | ECRDeployment _ dest => [dest]
                     | _ => []
                     end) (children st).

(** The inbound NetworkRules. *)
Definition inboundRules (st : Stack) : list IngressRule :=
  flat_map (fun c => match resource c with
                     | SecurityGroup _ _ _ rules => rules
                     | _ => []
                     end) (children st).

Definition admits (p : N) (r : IngressRule) : bool :=
  match protocol (connection r) with
  | TCP => (fromPort (connection r) <=? p)%N && (p <=? toPort (connection r))%N
  | UDP => false
  end.

(** The ImageRepositories, with their retention settings. *)
Definition repositories (st : Stack) : list (string * RemovalPolicy * bool) :=
  flat_map (fun c => match resource c with
                     | Repository name policy empty => [(name, policy, empty)]
                     | _ => []
                     end) (children st).

End Descriptor.

(** ** Closed forms and sample inputs used by the theorems *)

Module Closed.
Import JS Node CDK.

(** The three statements of the constructor that read the version. *)
Definition readVersion (w : World) : Result Value :=
  match readFileSync (fs w) (path_join (dirname w) [".."; "app"; "package.json"]) with
  | Throw e => Throw e
  | Ok text =>
      match JSON_parse text with
      | Throw e => Throw e
      | Ok packageJson => getProp packageJson "version"
      end
  end.

Definition child (name : string) (r : Resource) (after : list string) : Construct :=
  {| id := name; resource := r; dependsOn := after |}.

Definition imageRef (v : Value) : CfnString :=
  [GetAtt "MyWebAppRepo" "RepositoryUri"; Lit ":"; Lit (ToString v)].

Definition webSg (w : World) : Construct :=
  child "WebSg"
    (SecurityGroup (vpcId (defaultVpc w)) "Allow HTTP access" true
       [{| peer := {| cidrIp := "0.0.0.0/0" |};
           connection := {| protocol := TCP; fromPort := 80; toPort := 80 |};
           ruleDescription := "Allow HTTP traffic" |}]) [].

Definition myWebAppRepo : Construct :=
  child "MyWebAppRepo" (Repository "dbbsoftt-repo" DESTROY true) [].

Definition deployDockerImage (w : World) (v : Value) : Construct :=
  child "DeployDockerImage" (ECRDeployment [Lit (imageUri (staging w))] (imageRef v)) [].

Definition ebInstanceRole : Construct :=
  child "EBInstanceRole"
    (Role "ec2.amazonaws.com"
       ["AWSElasticBeanstalkWebTier"; "AmazonEC2ContainerRegistryReadOnly"]) [].

Definition ebInstanceProfile : Construct :=
  child "EBInstanceProfile" (CfnInstanceProfile [[Ref "EBInstanceRole"]]) [].

Definition myEBApp : Construct := child "MyEBApp" (CfnApplication (Some "DbbSoft")) [].

Definition myAppVersion (w : World) (v : Value) : Construct :=
  child "MyAppVersion"
    (CfnApplicationVersion "DbbSoft" [Lit (s3BucketName (staging w))]
       [Lit (s3ObjectKey (staging w))] ("Version " +:+ ToString v))
    ["MyEBApp"].

Definition setting (ns name : string) (v : CfnString) : OptionSetting :=
  {| namespace := ns; optionName := name; value := v |}.

Definition myEBEnv (w : World) (v : Value) : Construct :=
  child "MyEBEnv"
    (CfnEnvironment "DbbSoftEnv" "DbbSoft" "64bit Amazon Linux 2023 v4.8.0 running Docker"
       [Ref "MyAppVersion"]
       [ setting "aws:ec2:vpc" "VPCId" [Lit (vpcId (defaultVpc w))];
         setting "aws:ec2:vpc" "Subnets"
           [Lit (joinWith "," (map subnetId (publicSubnets (defaultVpc w))))];
         setting "aws:ec2:vpc" "AssociatePublicIpAddress" [Lit "true"];
         setting "aws:autoscaling:launchconfiguration" "IamInstanceProfile"
           [Ref "EBInstanceProfile"];
         setting "aws:autoscaling:launchconfiguration" "InstanceType" [Lit "t3.micro"];
         setting "aws:autoscaling:launchconfiguration" "SecurityGroups"
           [GetAtt "WebSg" "GroupId"];
         setting "aws:elasticbeanstalk:environment" "EnvironmentType" [Lit "SingleInstance"];
         setting "aws:elasticbeanstalk:application:environment" "AWS_EB_DOCKER_IMAGE_URI"
           (imageRef v) ])
    [].

(** The stack the constructor leaves when the manifest gave it version [v]. *)
Definition built (w : World) (v : Value) : Stack :=
  {| children :=
       [ child "DefaultVPC" (LookedUpVpc (defaultVpc w)) [];
         webSg w;
         myWebAppRepo;
         child "MyWebAppImage"
           (DockerImageAsset (path_join (dirname w) [".."; "app"]) "linux/amd64") [];
         deployDockerImage w v;
         child "AppSourceZip" (Asset (path_join (dirname w) [".."; "app"])) [];
         ebInstanceRole;
         ebInstanceProfile;
         myEBApp;
         myAppVersion w v;
         myEBEnv w v ];
     stdout := ["🚀 Preparing to deploy version: " +:+ ToString v] |}.

(** The path the constructor reads the manifest from. *)
Definition manifestPath (w : World) : Path :=
  path_join (dirname w) [".."; "app"; "package.json"].

(** The manifest is missing, cannot be read, or is not JSON. *)
Definition manifestUnusable (w : World) : Prop :=
  fs w (manifestPath w) = NoEntry \/
  fs w (manifestPath w) = Unreadable \/
  exists text e, fs w (manifestPath w) = File text /\ JSON_parse text = Throw e.

(** The one inbound rule the constructor declares. *)
Definition httpRule : IngressRule :=
  {| peer := Peer_anyIpv4; connection := Port_tcp 80;
     ruleDescription := "Allow HTTP traffic" |}.

(** The resources in the order the constructor declares them. *)
Definition declared : list string :=
  ["WebSg"; "MyWebAppRepo"; "DeployDockerImage"; "EBInstanceRole"; "EBInstanceProfile";
   "MyEBApp"; "MyAppVersion"; "MyEBEnv"].

Fixpoint position (name : string) (names : list string) : nat :=
  match names with
  | [] => 0
  | n :: rest => if String.eqb n name then 0 else S (position name rest)
  end.

Definition rank (c : Construct) : nat := position (id c) declared.

Definition lookupRefused : Error :=
  CdkError ("Cannot retrieve value from context provider vpc-provider since "
            +:+ "account/region are not specified at the stack level").

End Closed.

(** Sample inputs: a checkout whose only file is [app/package.json]. *)
Module Sample.
Import JS Node CDK.

Definition manifest (v : string) : string :=
  "{" +:+ quoted "name" +:+ ":" +:+ quoted "app" +:+ ","
      +:+ quoted "version" +:+ ":" +:+ quoted v +:+ "}".

Definition checkout (e : Entry) : FileSystem :=
  fun p => if decide (p = ["repo"; "app"; "package.json"]) then e else NoEntry.

Definition world (e : Entry) : World :=
  {| fs := checkout e;
     dirname := ["repo"; "lib"];
     defaultVpc := {| vpcId := "vpc-0a1b2c";
                      publicSubnets := [{| subnetId := "subnet-a" |};
                                        {| subnetId := "subnet-b" |}] |};
     staging := {| imageUri := "cdk-assets:6f1e";
                   s3BucketName := "cdk-assets-bucket";
                   s3ObjectKey := "6f1e.zip" |} |}.

Definition release (v : string) : World := world (File (manifest v)).

Definition props : StackProps :=
  {| account := Some "123456789"; region := Some "us-east-1" |}.

Definition target : Aws.Target :=
  {| Aws.accountId := "123456789";
     Aws.regionName := "us-east-1";
     Aws.physical := fun c att => c +:+ "." +:+ att |}.

Definition accepting : Applier.Api := fun _ _ => None.

(** The stack built from the release [v]. *)
Definition stack (v : string) : Stack := Closed.built (release v) (Str v).

(** The service after the release [v] was applied. *)
Definition deployed (v : string) : Applier.Cloud :=
  list_to_map (map (fun c => (id c, c)) (Applier.descriptor (stack v))).

(** A registry that holds two releases. *)
Definition registry : Aws.Registry := {[ "dbbsoftt-repo" := ["1.0.1"; "1.0.0"] ]}.

(** The calls that create every resource of the release [v]. *)
Definition creations (v : string) : list Applier.Call :=
  map (fun c => {| Applier.op := Applier.Create; Applier.target := c |})
      (Applier.descriptor (stack v)).

(** A service that refuses to create the instance profile. *)
Definition refusingProfile : Applier.Api :=
  fun _ k =>
    if String.eqb (id (Applier.target k)) "EBInstanceProfile"
    then Some Applier.SubmissionError else None.

(** A host running [server.js] next to a manifest of version [2.0.0], and a
    health probe. *)
Definition host : FileSystem :=
  fun p => if decide (p = ["srv"; "package.json"]) then File (manifest "2.0.0") else NoEntry.

Definition probe : Server.Request :=
  {| Server.method := Server.GET; Server.path := "/health"; Server.query := "verbose=1";
     Server.headers := [("accept", "*/*")]; Server.body := "" |}.

(** The body of the health answer for a server that read version [2.0.0]. *)
Definition healthy_2_0_0 : string :=
  "{" +:+ quoted "status" +:+ ":" +:+ quoted "healthy" +:+ ","
      +:+ quoted "version" +:+ ":" +:+ quoted "2.0.0" +:+ "}".

End Sample.

(** * Properties *)

(** ** Following the references of a stack *)

Module Linked.
Import JS Node CDK.

(** The construct a string refers to, when the string is one reference. *)
Definition referent (st : Stack) (s : CfnString) : option Construct :=
  match s with
  | [Ref c] => findChild c (children st)
  | [GetAtt c _] => findChild c (children st)
  | _ => None
  end.

(** The directories given to the image asset and to the source bundle. *)
Definition assetDirectories (st : Stack) : list Path :=
  flat_map (fun c => match resource c with
                     | DockerImageAsset directory _ => [directory]
                     | Asset path => [path]
                     | _ => []
                     end) (children st).

(** A path segment that [path.join] keeps as it is. *)
Definition plain (s : string) : bool :=
  negb (String.eqb s ".." || String.eqb s "." || String.eqb s "").

(** Each construct of the list refers only to the names in [seen] and to the
    constructs before it. *)
Fixpoint declaredBefore (seen : list string) (l : list Construct) : bool :=
  match l with
  | [] => true
  | c :: rest =>
      forallb (fun d => existsb (String.eqb d) seen) (Applier.deps c)
      && declaredBefore (seen ++ [id c]) rest
  end.

(** A manifest that is [null], or [undefined], has no property to read. *)
Definition hasProperties (v : Value) : bool :=
  match v with
  | Null | Undefined => false
  | _ => true
  end.

(** [v.version] is [undefined]: an object without the key, or a value
    that is no object. *)
Definition lacksVersion (v : Value) : Prop :=
  match v with
  | Object props => lookupProp "version" props = None
  | Null | Undefined => False
  | _ => True
  end.

End Linked.

(** More sample inputs: a manifest without a version, and requests. *)
Module Cases.
Import JS Node CDK.

Definition bareManifest : string := "{" +:+ quoted "name" +:+ ":" +:+ quoted "app" +:+ "}".

Definition bareWorld : World := Sample.world (File bareManifest).

Definition bareHost : FileSystem :=
  fun p => if decide (p = ["srv"; "package.json"]) then File bareManifest else NoEntry.

Definition emptyHost : FileSystem := fun _ => NoEntry.

Definition rootProbe : Server.Request :=
  {| Server.method := Server.GET; Server.path := "/"; Server.query := "";
     Server.headers := []; Server.body := "" |}.

Definition healthProbe : Server.Request :=
  {| Server.method := Server.GET; Server.path := "/health"; Server.query := "";
     Server.headers := []; Server.body := "" |}.

Definition noAccount : StackProps := {| account := None; region := Some "us-east-1" |}.

End Cases.

Module Strings.

Lemma append_nil_r (s : string) : s +:+ "" = s.
Proof.
  induction s as [|c s IH]; [reflexivity|].
  change (String c (s +:+ "") = String c s). now rewrite IH.
Qed.

Lemma append_assoc (a b c : string) : (a +:+ b) +:+ c = a +:+ b +:+ c.
Proof.
  induction a as [|x a IH]; [reflexivity|].
  change (String x ((a +:+ b) +:+ c) = String x (a +:+ b +:+ c)). now rewrite IH.
Qed.

Lemma length_append (a b : string) :
  String.length (a +:+ b) = String.length a + String.length b.
Proof.
  induction a as [|x a IH]; [reflexivity|].
  change (S (String.length (a +:+ b)) = S (String.length a + String.length b)).
  now rewrite IH.
Qed.

End Strings.

(** ** The JSON descent has fuel enough *)

Module JsonFacts.
Import JS.

Local Abbreviation len := String.length.

Lemma skipWs_length s : len (skipWs s) <= len s.
Proof.
  induction s as [|c r IH]; simpl; [lia|].
  destruct (isWs c); simpl; lia.
Qed.

Lemma skipWs_cons s c r : skipWs s = String c r -> len r < len s.
Proof. intros H. pose proof (skipWs_length s) as L. rewrite H in L. simpl in L. lia. Qed.

Lemma parseChars_length n : forall s acc k r,
  len s <= n -> parseChars s acc = Some (k, r) -> len r < len s.
Proof.
  induction n as [|n IH]; intros s acc k r Hn.
  - destruct s; [discriminate | simpl in Hn; lia].
  - destruct s as [|c s]; [discriminate|]. simpl in Hn.
    cbn [parseChars].
    cbv zeta.
    repeat match goal with
    | |- context [if ?b then _ else _] => destruct b
    | |- Some _ = Some _ -> _ => intros [= <- <-]; simpl; lia
    | |- None = Some _ -> _ => discriminate
    | |- parseChars ?x _ = Some _ -> _ =>
        let H := fresh in intros H; apply IH in H; simpl in *; lia
    | |- context [match ?x with EmptyString => _ | String _ _ => _ end] => destruct x
    | |- context [match hex4 ?x with _ => _ end] => destruct (hex4 x) as [[? ?]|]
    end.
Qed.

Lemma takeDigits_length s : len (snd (takeDigits s)) <= len s.
Proof.
  induction s as [|c r IH]; simpl; [lia|].
  destruct (isDigit c); [|simpl; lia].
  destruct (takeDigits r) as [ds r']. simpl in *. lia.
Qed.

Lemma takeDigits_length' s ds r : takeDigits s = (ds, r) -> len r <= len s.
Proof. intros H. pose proof (takeDigits_length s) as L. now rewrite H in L. Qed.

Lemma takeDigits_digit c s ds r :
  isDigit c = true -> takeDigits (String c s) = (ds, r) -> len r <= len s.
Proof.
  simpl. intros ->. destruct (takeDigits s) as [ds' r'] eqn:E.
  intros [= <- <-]. now apply takeDigits_length' in E.
Qed.

Lemma parseNumber_length s lit r : parseNumber s = Some (lit, r) -> len r < len s.
Proof.
  unfold parseNumber.
  set (signed := match s with
                 | String c r0 => if isChar 45 c then ("-", r0) else ("", s)
                 | EmptyString => ("", s)
                 end).
  assert (len (snd signed) <= len s) as Hs.
  { subst signed. destruct s as [|c r0]; simpl; [lia|]. destruct (isChar 45 c); simpl; lia. }
  destruct signed as [sign s1]. simpl in Hs.
  set (int := match s1 with
              | String c r0 =>
                  if isChar 48 c then Some ("0", r0)
                  else if isDigit c then Some (takeDigits s1) else None
              | EmptyString => None
              end).
  assert (forall ip s2, int = Some (ip, s2) -> len s2 < len s1) as Hi.
  { subst int. intros ip s2. destruct s1 as [|c r0]; [discriminate|].
    destruct (isChar 48 c); [intros [= <- <-]; simpl; lia|].
    destruct (isDigit c) eqn:Hd; [|discriminate].
    intros [= E]. apply (takeDigits_digit _ _ _ _ Hd) in E. simpl. lia. }
  destruct int as [[ip s2]|]; [|discriminate]. specialize (Hi _ _ eq_refl).
  set (frac := match s2 with
               | String c r0 =>
                   if isChar 46 c then
                     let (ds, r') := takeDigits r0 in
                     if String.eqb ds "" then None else Some ("." +:+ ds, r')
                   else Some ("", s2)
               | EmptyString => Some ("", s2)
               end).
  assert (forall fp s3, frac = Some (fp, s3) -> len s3 <= len s2) as Hf.
  { subst frac. intros fp s3. destruct s2 as [|c r0]; [intros [= <- <-]; lia|].
    destruct (isChar 46 c); [|intros [= <- <-]; lia].
    destruct (takeDigits r0) as [ds r'] eqn:E. apply takeDigits_length' in E.
    destruct (String.eqb ds ""); [discriminate|]. intros [= <- <-]. simpl. lia. }
  destruct frac as [[fp s3]|]; [|discriminate]. specialize (Hf _ _ eq_refl).
  set (expo := match s3 with
               | String c r0 =>
                   if isChar 101 c || isChar 69 c then
                     let (sg, r1) :=
                       match r0 with
                       | String d r' =>
                           if isChar 43 d || isChar 45 d
                           then (String d EmptyString, r') else ("", r0)
                       | EmptyString => ("", r0)
                       end in
                     let (ds, r2) := takeDigits r1 in
                     if String.eqb ds "" then None
                     else Some (String c EmptyString +:+ sg +:+ ds, r2)
                   else Some ("", s3)
               | EmptyString => Some ("", s3)
               end).
  assert (forall ep s4, expo = Some (ep, s4) -> len s4 <= len s3) as He.
  { subst expo. intros ep s4. destruct s3 as [|c r0]; [intros [= <- <-]; lia|].
    destruct (isChar 101 c || isChar 69 c); [|intros [= <- <-]; lia].
    set (sg := match r0 with
               | String d r' =>
                   if isChar 43 d || isChar 45 d then (String d EmptyString, r') else ("", r0)
               | EmptyString => ("", r0)
               end).
    assert (len (snd sg) <= len r0) as Hsg.
    { subst sg. destruct r0 as [|d r']; simpl; [lia|].
      destruct (isChar 43 d || isChar 45 d); simpl; lia. }
    destruct sg as [sg r1]. simpl in Hsg.
    destruct (takeDigits r1) as [ds r2] eqn:E. apply takeDigits_length' in E.
    destruct (String.eqb ds ""); [discriminate|]. intros [= <- <-]. simpl. lia. }
  destruct expo as [[ep s4]|]; [|discriminate]. specialize (He _ _ eq_refl).
  intros [= <- <-]. lia.
Qed.

Lemma stripPrefix_length p : forall s r, stripPrefix p s = Some r -> len s = len p + len r.
Proof.
  induction p as [|a p IH]; intros s r; simpl.
  - now intros [= <-].
  - destruct s as [|b s]; [discriminate|]. destruct (Ascii.eqb a b); [|discriminate].
    intros H. apply IH in H. simpl. lia.
Qed.

Lemma parseLiteral_length s v r : parseLiteral s = Some (v, r) -> len r < len s.
Proof.
  unfold parseLiteral.
  destruct (stripPrefix "true" s) eqn:E1.
  { intros [= <- <-]. apply stripPrefix_length in E1. simpl in E1. lia. }
  destruct (stripPrefix "false" s) eqn:E2.
  { intros [= <- <-]. apply stripPrefix_length in E2. simpl in E2. lia. }
  destruct (stripPrefix "null" s) eqn:E3.
  { intros [= <- <-]. apply stripPrefix_length in E3. simpl in E3. lia. }
  destruct (parseNumber s) as [[lit r']|] eqn:E4; [|discriminate].
  intros [= <- <-]. now apply parseNumber_length in E4.
Qed.

Ltac step :=
  match goal with
  | |- None = Some _ -> _ => discriminate
  | |- Some _ = Some _ -> _ => intros [= <- <-]
  | |- context [match skipWs ?x with EmptyString => _ | String _ _ => _ end] =>
      let E := fresh "E" in destruct (skipWs x) eqn:E; [|apply skipWs_cons in E]
  | |- context [if isChar ?n ?c then _ else _] => destruct (isChar n c)
  | |- context [match parseChars ?x ?a with _ => _ end] =>
      let E := fresh "E" in
      destruct (parseChars x a) as [[? ?]|] eqn:E;
      [apply (parseChars_length _ _ _ _ _ (le_n _)) in E|]
  end.

Lemma parse_length f :
  (forall s v r, parseValue f s = Some (v, r) -> len r < len s) /\
  (forall s acc v r, parseElements f s acc = Some (v, r) -> len r < len s) /\
  (forall s acc v r, parseMembers f s acc = Some (v, r) -> len r < len s).
Proof.
  induction f as [|f (IHv & IHe & IHm)]; [repeat split; intros; discriminate|].
  repeat split.
  - intros s v r. cbn [parseValue].
    destruct (skipWs s) as [|c t] eqn:E; [discriminate|]. apply skipWs_cons in E.
    destruct (isChar 123 c).
    { destruct (skipWs t) as [|c' t'] eqn:E'; [discriminate|].
      pose proof (skipWs_length t) as L. rewrite E' in L.
      destruct (isChar 125 c'); [intros [= <- <-]; simpl in L; lia|].
      intros H. apply IHm in H. simpl in *. lia. }
    destruct (isChar 91 c).
    { destruct (skipWs t) as [|c' t'] eqn:E'; [discriminate|].
      pose proof (skipWs_length t) as L. rewrite E' in L.
      destruct (isChar 93 c'); [intros [= <- <-]; simpl in L; lia|].
      intros H. apply IHe in H. simpl in *. lia. }
    destruct (isChar 34 c).
    { repeat step. simpl in *. lia. }
    intros H. apply parseLiteral_length in H. simpl in *. lia.
  - intros s acc v r. cbn [parseElements].
    destruct (parseValue f s) as [[x t]|] eqn:E; [|discriminate]. apply IHv in E.
    destruct (skipWs t) as [|c t'] eqn:E'; [discriminate|]. apply skipWs_cons in E'.
    destruct (isChar 44 c); [intros H; apply IHe in H; lia|].
    destruct (isChar 93 c); [|discriminate]. intros [= <- <-]. lia.
  - intros s acc v r. cbn [parseMembers].
    destruct (skipWs s) as [|q t] eqn:E; [discriminate|]. apply skipWs_cons in E.
    destruct (isChar 34 q); [|discriminate].
    destruct (parseChars t "") as [[key r1]|] eqn:E1; [|discriminate].
    apply (parseChars_length _ _ _ _ _ (le_n _)) in E1.
    destruct (skipWs r1) as [|c r2] eqn:E2; [discriminate|]. apply skipWs_cons in E2.
    destruct (isChar 58 c); [|discriminate].
    destruct (parseValue f r2) as [[x r3]|] eqn:E3; [|discriminate]. apply IHv in E3.
    destruct (skipWs r3) as [|d r4] eqn:E4; [discriminate|]. apply skipWs_cons in E4.
    destruct (isChar 44 d); [intros H; apply IHm in H; lia|].
    destruct (isChar 125 d); [|discriminate]. intros [= <- <-]. lia.
Qed.

(** One more unit of fuel changes nothing once the fuel is twice the
    length of the text. *)
Lemma parse_fuel f :
  (forall s, 2 * len s + 1 <= f -> parseValue (S f) s = parseValue f s) /\
  (forall s acc, 2 * len s + 2 <= f -> parseElements (S f) s acc = parseElements f s acc) /\
  (forall s acc, 2 * len s + 1 <= f -> parseMembers (S f) s acc = parseMembers f s acc).
Proof.
  induction f as [|f (IHv & IHe & IHm)]; [repeat split; intros; lia|].
  repeat split.
  - intros s Hf. cbn [parseValue].
    destruct (skipWs s) as [|c t] eqn:E; [reflexivity|]. apply skipWs_cons in E.
    pose proof (skipWs_length t) as L.
    destruct (isChar 123 c).
    { destruct (skipWs t) as [|c' t'] eqn:E'; [reflexivity|]. rewrite <- E' in *.
      destruct (isChar 125 c'); [reflexivity|]. apply IHm. lia. }
    destruct (isChar 91 c); [|reflexivity].
    destruct (skipWs t) as [|c' t'] eqn:E'; [reflexivity|]. rewrite <- E' in *.
    destruct (isChar 93 c'); [reflexivity|]. apply IHe. lia.
  - intros s acc Hf. cbn [parseElements].
    rewrite IHv by lia.
    destruct (parseValue f s) as [[x t]|] eqn:E; [|reflexivity].
    apply (proj1 (parse_length f)) in E.
    destruct (skipWs t) as [|c t'] eqn:E'; [reflexivity|]. apply skipWs_cons in E'.
    destruct (isChar 44 c); [|reflexivity]. apply IHe. lia.
  - intros s acc Hf. cbn [parseMembers].
    destruct (skipWs s) as [|q t] eqn:E; [reflexivity|]. apply skipWs_cons in E.
    destruct (isChar 34 q); [|reflexivity].
    destruct (parseChars t "") as [[key r1]|] eqn:E1; [|reflexivity].
    apply (parseChars_length _ _ _ _ _ (le_n _)) in E1.
    destruct (skipWs r1) as [|c r2] eqn:E2; [reflexivity|]. apply skipWs_cons in E2.
    destruct (isChar 58 c); [|reflexivity].
    rewrite IHv by lia.
    destruct (parseValue f r2) as [[x r3]|] eqn:E3; [|reflexivity].
    apply (proj1 (parse_length f)) in E3.
    destruct (skipWs r3) as [|d r4] eqn:E4; [reflexivity|]. apply skipWs_cons in E4.
    destruct (isChar 44 d); [|reflexivity]. apply IHm. lia.
Qed.

(** [JSON_parse] gives the text all the fuel the descent can use: more fuel
    gives the same result. *)
Lemma parseValue_enough (text : string) (extra : nat) :
  parseValue (2 * len text + 2 + extra) text = parseValue (2 * len text + 2) text.
Proof.
  induction extra as [|n IH]; [now rewrite Nat.add_0_r|].
  rewrite Nat.add_succ_r, <- IH. apply (proj1 (parse_fuel _)). lia.
Qed.

End JsonFacts.

Module InfraFacts.
Import JS Node CDK Infra Closed Descriptor.

Lemma build_eq (props : StackProps) (w : World) :
  build props w =
  match account props, region props with
  | Some _, Some _ =>
      match readVersion w with
      | Ok v => Ok (built w v)
      | Throw e => Throw e
      end
  | _, _ => Throw lookupRefused
  end.
Proof.
  unfold build, DbbSoftTestStack, Vpc_fromLookup, readVersion.
  destruct (account props), (region props); try reflexivity.
  unfold bind at 1. simpl.
  unfold bind at 1. simpl.
  unfold bind at 1. simpl.
  unfold bind at 1; unfold lift at 1.
  destruct (readFileSync _ _) as [text|e]; [|reflexivity].
  unfold bind at 1; unfold lift at 1.
  destruct (JSON_parse text) as [pj|e]; [|reflexivity].
  unfold bind at 1; unfold lift at 1.
  destruct (getProp pj "version") as [v|e]; [|reflexivity].
  reflexivity.
Qed.

(** A successful build is the closed form, for the version the manifest
    gave. *)
Lemma build_Ok (props : StackProps) (w : World) (st : Stack) :
  build props w = Ok st ->
  exists a r v, account props = Some a /\ region props = Some r /\
                readVersion w = Ok v /\ st = built w v.
Proof.
  rewrite build_eq. intros H.
  destruct (account props) as [a|]; [|discriminate].
  destruct (region props) as [r|]; [|discriminate].
  destruct (readVersion w) as [v|e]; [|discriminate].
  injection H as <-. now exists a, r, v.
Qed.

Lemma build_built (props : StackProps) (w : World) a r v :
  account props = Some a -> region props = Some r -> readVersion w = Ok v ->
  build props w = Ok (built w v).
Proof. intros Ha Hr Hv. now rewrite build_eq, Ha, Hr, Hv. Qed.

Lemma resolve_imageRef (t : Aws.Target) (w : World) (v : Value) :
  Aws.resolve t (built w v) (imageRef v)
  = Aws.registryHost t +:+ "/" +:+ "dbbsoftt-repo" +:+ ":" +:+ ToString v.
Proof.
  unfold imageRef. cbn.
  now rewrite Strings.append_nil_r, !Strings.append_assoc.
Qed.

(** C10. For every version value the manifest gives, the reference the image
    is pushed under (the destination of the ECRDeployment) and the image URI
    given to the environment (option AWS_EB_DOCKER_IMAGE_URI) are the same
    string, the repository URI, a colon and the version: the environment
    pulls the tag that was pushed, whatever the deployment resolves the
    repository URI to. *)
Theorem pushed_reference_is_pulled_reference (props : StackProps) (w : World) (st : Stack) :
  build props w = Ok st ->
  exists v env,
    readVersion w = Ok v /\
    environments st = [env] /\
    pushDestinations st = [imageName (repositoryUri "MyWebAppRepo") v] /\
    imageReference env = Some (imageName (repositoryUri "MyWebAppRepo") v) /\
    forall t dest pulled,
      pushDestinations st = [dest] -> imageReference env = Some pulled ->
      Aws.resolve t st dest = Aws.resolve t st pulled.
Proof.
  intros H. destruct (build_Ok _ _ _ H) as (a & r & v & _ & _ & Hv & ->).
  exists v, (myEBEnv w v). repeat split; try reflexivity; try assumption.
  intros t dest pulled Hd Hp. cbn in Hd, Hp. congruence.
Qed.

Lemma pushed_reference_is_pulled_reference_witness :
  Infra.build Sample.props (Sample.release "1.4.2") = Ok (Sample.stack "1.4.2") /\
  exists v env,
    readVersion (Sample.release "1.4.2") = Ok v /\
    environments (Sample.stack "1.4.2") = [env] /\
    pushDestinations (Sample.stack "1.4.2") = [imageName (repositoryUri "MyWebAppRepo") v] /\
    imageReference env = Some (imageName (repositoryUri "MyWebAppRepo") v) /\
    forall t dest pulled,
      pushDestinations (Sample.stack "1.4.2") = [dest] -> imageReference env = Some pulled ->
      Aws.resolve t (Sample.stack "1.4.2") dest = Aws.resolve t (Sample.stack "1.4.2") pulled.
Proof.
  split; [vm_compute; reflexivity|].
  apply (pushed_reference_is_pulled_reference Sample.props (Sample.release "1.4.2")).
  vm_compute; reflexivity.
Defined.




Lemma host_prefix_differs (host name : string) : host +:+ "/" +:+ name <> name.
Proof.
  intros E. apply (f_equal String.length) in E.
  rewrite !Strings.length_append in E. simpl in E. lia.
Qed.

(** C4, as stated, fails: for version [1.2.3] the reference the image is
    pushed under is not the string [dbbsoftt-repo:1.2.3]; it is the
    repository URI with the tag, which starts with the registry host. *)
Lemma pushed_reference_starts_with_the_registry_host :
  exists st dest,
    build Sample.props (Sample.release "1.2.3") = Ok st /\
    pushDestinations st = [dest] /\
    dest <> lit "dbbsoftt-repo:1.2.3" /\
    Aws.resolve Sample.target st dest
    = "123456789.dkr.ecr.us-east-1.amazonaws.com/dbbsoftt-repo:1.2.3" /\
    Aws.resolve Sample.target st dest <> "dbbsoftt-repo:1.2.3".
Proof.
  exists (Sample.stack "1.2.3"),
         [GetAtt "MyWebAppRepo" "RepositoryUri"; Lit ":"; Lit "1.2.3"].
  repeat split; try (vm_compute; reflexivity); vm_compute; discriminate.
Qed.

(** C4, amended. Given version [1.2.3], the reference the image is pushed
    under is the URI of the repository [dbbsoftt-repo] followed by [:1.2.3]:
    deployed, the registry host, a slash and [dbbsoftt-repo:1.2.3], never the
    bare [dbbsoftt-repo:1.2.3]. *)
Theorem pushed_reference_for_1_2_3 (props : StackProps) (w : World) (st : Stack) :
  build props w = Ok st ->
  readVersion w = Ok (Str "1.2.3") ->
  exists dest,
    pushDestinations st = [dest] /\
    dest = repositoryUri "MyWebAppRepo" ++ lit ":" ++ lit "1.2.3" /\
    forall t,
      Aws.resolve t st dest = Aws.registryHost t +:+ "/" +:+ "dbbsoftt-repo:1.2.3" /\
      Aws.resolve t st dest <> "dbbsoftt-repo:1.2.3".
Proof.
  intros H Hv. destruct (build_Ok _ _ _ H) as (a & r & v & _ & _ & Hv' & ->).
  assert (v = Str "1.2.3") as -> by congruence.
  exists (imageRef (Str "1.2.3")). repeat split.
  - rewrite resolve_imageRef. reflexivity.
  - rewrite resolve_imageRef. apply host_prefix_differs.
Qed.

Lemma pushed_reference_for_1_2_3_witness :
  build Sample.props (Sample.release "1.2.3") = Ok (Sample.stack "1.2.3") /\
  readVersion (Sample.release "1.2.3") = Ok (Str "1.2.3") /\
  exists dest,
    pushDestinations (Sample.stack "1.2.3") = [dest] /\
    dest = repositoryUri "MyWebAppRepo" ++ lit ":" ++ lit "1.2.3" /\
    forall t,
      Aws.resolve t (Sample.stack "1.2.3") dest
      = Aws.registryHost t +:+ "/" +:+ "dbbsoftt-repo:1.2.3" /\
      Aws.resolve t (Sample.stack "1.2.3") dest <> "dbbsoftt-repo:1.2.3".
Proof.
  split; [vm_compute; reflexivity|]. split; [vm_compute; reflexivity|].
  apply (pushed_reference_for_1_2_3 Sample.props (Sample.release "1.2.3"));
    vm_compute; reflexivity.
Defined.

Lemma unusable_readVersion (w : World) :
  manifestUnusable w -> exists e, readVersion w = Throw e.
Proof.
  unfold manifestUnusable, manifestPath, readVersion, readFileSync.
  intros [H | [H | (text & e & H & Hp)]]; rewrite H; eauto.
  rewrite Hp. eauto.
Qed.

(** C2, as stated, fails: a manifest whose version is the empty string does
    not stop the builder; the image is pushed under the repository URI with
    an empty tag. *)
Lemma empty_version_is_accepted :
  exists st,
    build Sample.props (Sample.release "") = Ok st /\
    pushDestinations st = [[GetAtt "MyWebAppRepo" "RepositoryUri"; Lit ":"; Lit ""]].
Proof. exists (Sample.stack ""). split; vm_compute; reflexivity. Qed.

(** C2, amended. When the manifest is missing, unreadable or not valid JSON,
    the constructor throws: there is no descriptor, the applier is not
    reached and no provisioning call is issued. With the account and the
    region set, the error is the one of the read or of the parse. An empty
    version is no error. *)
Theorem unusable_manifest_stops_the_build
  (props : StackProps) (w : World) (api : Applier.Api) (cloud : Applier.Cloud) :
  manifestUnusable w ->
  exists e,
    build props w = Throw e /\
    Pipeline.deploy props w api cloud = Throw e /\
    Pipeline.calls (Pipeline.deploy props w api cloud) = [] /\
    (forall a r, account props = Some a -> region props = Some r ->
                 readVersion w = Throw e).
Proof.
  intros H. destruct (unusable_readVersion w H) as [e He].
  unfold Pipeline.deploy. rewrite build_eq, He.
  destruct (account props) as [a|], (region props) as [r|].
  - exists e. repeat split.
  - exists lookupRefused. repeat split. discriminate.
  - exists lookupRefused. repeat split. discriminate.
  - exists lookupRefused. repeat split. discriminate.
Qed.

Lemma unusable_manifest_stops_the_build_witness :
  manifestUnusable (Sample.world NoEntry) /\
  exists e,
    build Sample.props (Sample.world NoEntry) = Throw e /\
    Pipeline.deploy Sample.props (Sample.world NoEntry) Sample.accepting ∅ = Throw e /\
    Pipeline.calls (Pipeline.deploy Sample.props (Sample.world NoEntry) Sample.accepting ∅) = [] /\
    (forall a r, account Sample.props = Some a -> region Sample.props = Some r ->
                 readVersion (Sample.world NoEntry) = Throw e).
Proof.
  split; [left; vm_compute; reflexivity|].
  apply (unusable_manifest_stops_the_build Sample.props (Sample.world NoEntry)).
  left; vm_compute; reflexivity.
Defined.




End InfraFacts.

Module ServerFacts.
Import JS Node Server.

Lemma server_Ok (fs : FileSystem) (dir : Path) (VERSION : Value) (app : App) :
  server fs dir = Ok (VERSION, app) ->
  routes app =
    [ {| verb := GET; pattern := "/health";
         handler := fun _ => res_json (Object [("status", Str "healthy"); ("version", VERSION)]) |};
      {| verb := GET; pattern := "/";
         handler := fun _ =>
           res_send ("Craneodev test app for DBB Software. The app is running. Version: "
                     +:+ ToString VERSION) |} ] /\
  listening app = Some PORT.
Proof.
  unfold server. destruct (require_json _ _) as [pj|e]; [|discriminate].
  destruct (getProp pj "version") as [v|e]; [|discriminate].
  intros H. injection H as <- <-. split; reflexivity.
Qed.



End ServerFacts.

Module OrderFacts.
Import JS CDK Applier.

Lemma ready_spec (placed : list string) (c : Construct) :
  ready placed c = true <-> forall d, In d (deps c) -> In d placed.
Proof.
  unfold ready. rewrite forallb_forall. split; intros H d Hd.
  - apply H, existsb_exists in Hd. destruct Hd as (x & Hx & He).
    apply String.eqb_eq in He. now subst.
  - apply existsb_exists. exists d. split; [now apply H | apply String.eqb_refl].
Qed.

Lemma pick_Some (placed : list string) (pending : list Construct) c rest :
  pick placed pending = Some (c, rest) ->
  ready placed c = true /\ Permutation pending (c :: rest).
Proof.
  revert c rest. induction pending as [|x l IH]; intros c rest; simpl; [discriminate|].
  destruct (ready placed x) eqn:Hx.
  - intros [= <- <-]. split; [assumption | reflexivity].
  - destruct (pick placed l) as [[y r]|]; [|discriminate].
    intros [= <- <-]. destruct (IH _ _ eq_refl) as [Hr Hp].
    split; [assumption|]. rewrite Hp. apply perm_swap.
Qed.

Lemma pick_None (placed : list string) (pending : list Construct) :
  pick placed pending = None -> forall c, In c pending -> ready placed c = false.
Proof.
  induction pending as [|x l IH]; simpl; [intros _ c []|].
  destruct (ready placed x) eqn:Hx; [discriminate|].
  destruct (pick placed l) as [[y r]|]; [discriminate|].
  intros _ c [<- | Hc]; [assumption | now apply IH].
Qed.

Lemma split_last {A} (l before after : list A) (c x : A) :
  l ++ [c] = before ++ x :: after ->
  (after = [] /\ before = l /\ x = c) \/
  (exists after', after = after' ++ [c] /\ l = before ++ x :: after').
Proof.
  destruct (exists_last (l := x :: after)) as (m & z & Hm); [discriminate|].
  rewrite Hm, app_assoc. intros H. apply app_inj_tail in H as [H ->].
  destruct m as [|y m].
  - left. simpl in Hm. injection Hm as -> ->. rewrite app_nil_r in H. now subst.
  - right. simpl in Hm. injection Hm as -> ->. exists m. now subst.
Qed.

Lemma WellPlaced_Ordered (placed : list Construct) :
  WellPlaced placed -> Ordered (rev placed).
Proof.
  induction 1 as [|c l Hl IH Hc]; intros before x after E d Hd.
  - destruct before; discriminate.
  - simpl in E. apply split_last in E as [(-> & -> & ->) | (after' & -> & E)].
    + unfold ids. rewrite map_rev, <- in_rev. now apply Hc.
    + now apply (IH _ _ _ E).
Qed.

Lemma order_sound (fuel : nat) (pending placed o : list Construct) :
  order fuel pending placed = Some o ->
  WellPlaced placed ->
  Ordered o /\ Permutation o (pending ++ placed).
Proof.
  revert pending placed. induction fuel as [|f IH]; intros pending placed.
  - destruct pending as [|x l]; simpl; [|discriminate].
    intros [= <-] Hw. split; [now apply WellPlaced_Ordered|].
    symmetry. apply Permutation_rev.
  - destruct pending as [|x l].
    + simpl. intros [= <-] Hw. split; [now apply WellPlaced_Ordered|].
      symmetry. apply Permutation_rev.
    + cbn [order].
      destruct (pick (ids placed) (x :: l)) as [[c rest]|] eqn:Hp; [|discriminate].
      intros Ho Hw. apply pick_Some in Hp as [Hr Hperm].
      destruct (IH _ _ Ho) as [HO HP].
      { constructor; [assumption|]. now apply ready_spec. }
      split; [assumption|]. rewrite HP, Hperm.
      symmetry. apply Permutation_middle.
Qed.

(** The length of the input is fuel enough: more changes nothing. *)
Lemma order_fuel (fuel : nat) :
  forall pending placed,
    length pending <= fuel -> order (S fuel) pending placed = order fuel pending placed.
Proof.
  induction fuel as [|f IH]; intros pending placed Hlen.
  - destruct pending; [reflexivity | simpl in Hlen; lia].
  - destruct pending as [|x l]; [reflexivity|].
    cbn [order].
    destruct (pick (ids placed) (x :: l)) as [[c rest]|] eqn:Hp; [|reflexivity].
    apply pick_Some in Hp as [_ Hperm]. apply Permutation_length in Hperm.
    apply IH. simpl in Hperm, Hlen. lia.
Qed.

Lemma creationOrder_sound (d o : list Construct) :
  creationOrder d = Some o -> Ordered o /\ Permutation o d.
Proof.
  intros H. apply order_sound in H; [|constructor].
  now rewrite app_nil_r in H.
Qed.

(** *** The sort succeeds on an acyclic, closed graph *)

Section Total.

Variable rank : Construct -> nat.

Lemma lowest (l : list Construct) :
  l <> [] -> exists m, In m l /\ forall c, In c l -> rank m <= rank c.
Proof.
  induction l as [|x l IH]; [congruence|]. intros _.
  destruct l as [|y l'].
  - exists x. split; [now left|]. intros c [<- | []]. lia.
  - destruct IH as (m & Hm & Hmin); [discriminate|].
    destruct (le_lt_dec (rank x) (rank m)) as [Hle | Hlt].
    + exists x. split; [now left|]. intros c [<- | Hc]; [lia|].
      specialize (Hmin c Hc). lia.
    + exists m. split; [now right|]. intros c [<- | Hc]; [lia | now apply Hmin].
Qed.

Lemma pick_total (pending placed : list Construct) :
  pending <> [] -> Grounded rank pending placed ->
  exists c rest, pick (ids placed) pending = Some (c, rest).
Proof.
  intros Hne Hg. destruct (pick (ids placed) pending) as [[c rest]|] eqn:Hp; [eauto|].
  exfalso. destruct (lowest pending Hne) as (m & Hm & Hmin).
  assert (ready (ids placed) m = true) as Hr.
  { apply ready_spec. intros d Hd.
    destruct (Hg m Hm d Hd) as [? | (c' & Hc' & _ & Hlt)]; [assumption|].
    specialize (Hmin c' Hc'). lia. }
  rewrite (pick_None _ _ Hp m Hm) in Hr. discriminate.
Qed.

Lemma order_total (fuel : nat) (pending placed : list Construct) :
  length pending <= fuel -> Grounded rank pending placed ->
  exists o, order fuel pending placed = Some o.
Proof.
  revert pending placed. induction fuel as [|f IH]; intros pending placed Hlen Hg.
  - destruct pending; [simpl; eauto | simpl in Hlen; lia].
  - destruct pending as [|x l]; [simpl; eauto|].
    cbn [order].
    destruct (pick_total (x :: l) placed) as (c & rest & Hp); [discriminate | assumption |].
    rewrite Hp. apply pick_Some in Hp as [_ Hperm].
    apply IH.
    + apply Permutation_length in Hperm. simpl in Hperm, Hlen. lia.
    + intros c0 Hc0 d Hd.
      assert (In c0 (x :: l)) as Hin.
      { apply (Permutation_in _ (Permutation_sym Hperm)). now right. }
      destruct (Hg c0 Hin d Hd) as [Hpl | (c' & Hc' & Hid & Hlt)].
      * left. now right.
      * apply (Permutation_in _ Hperm) in Hc'. destruct Hc' as [<- | Hc'].
        -- left. left. assumption.
        -- right. eauto.
Qed.

Lemma creationOrder_total (d : list Construct) :
  Grounded rank d [] -> exists o, creationOrder d = Some o.
Proof. intros H. now apply order_total. Qed.

Lemma Grounded_perm (l l' : list Construct) :
  Permutation l l' -> Grounded rank l [] -> Grounded rank l' [].
Proof.
  intros Hp Hg c Hc d Hd.
  apply (Permutation_in _ (Permutation_sym Hp)) in Hc.
  destruct (Hg c Hc d Hd) as [[] | (c' & Hc' & Hid & Hlt)].
  right. exists c'. split; [|now split]. now apply (Permutation_in _ Hp).
Qed.

Lemma groundedb_Grounded (l : list Construct) :
  groundedb rank l = true -> Grounded rank l [].
Proof.
  unfold groundedb. rewrite forallb_forall. intros H c Hc d Hd. right.
  specialize (H c Hc). rewrite forallb_forall in H. specialize (H d Hd).
  apply existsb_exists in H as (c' & Hc' & Hb).
  apply andb_true_iff in Hb as [He Hlt].
  apply String.eqb_eq in He. apply Nat.ltb_lt in Hlt. eauto.
Qed.

End Total.

(** *** Positions in a creation order *)

Lemma Ordered_precedes (o : list Construct) (c : Construct) (d : string) :
  Ordered o -> In c o -> In d (deps c) -> precedes d (id c) (ids o).
Proof.
  intros HO Hc Hd. apply in_split in Hc as (before & after & ->).
  specialize (HO before c after eq_refl d Hd).
  apply list_elem_of_In, list_elem_of_lookup in HO as [i Hi].
  exists i, (length (ids before)). unfold ids in *. rewrite map_app. simpl.
  split; [|split].
  - now apply lookup_app_l_Some.
  - now rewrite list_lookup_middle.
  - now apply lookup_lt_Some in Hi.
Qed.

Lemma precedes_trans (a b c : string) (names : list string) :
  NoDup names -> precedes a b names -> precedes b c names -> precedes a c names.
Proof.
  intros Hnd (i & j & Hi & Hj & Hij) (j' & k & Hj' & Hk & Hjk).
  assert (j = j') as <- by exact (NoDup_lookup _ _ _ _ Hnd Hj Hj').
  exists i, k. repeat split; [assumption | assumption | lia].
Qed.

End OrderFacts.

Module SubmitFacts.
Import JS CDK Applier.

(** Every run of the submission pass: the log grows by calls on resources of
    the sequence, each at most once and in order; the accepted calls replay to
    the state the service is left in; the run fails exactly at a call the
    service rejected, which is the last of the log. *)
Lemma submit_run (api : Api) (todo : list Construct) :
  forall cloud acc cloud' log out,
    submit api todo cloud acc = (cloud', log, out) ->
    exists new, log = acc ++ new /\
      match out with
      | Applied =>
          replay api cloud new = Some cloud' /\ sublist (map target new) todo
      | Failed name o why =>
          exists before c after done,
            todo = before ++ c :: after /\ id c = name /\
            new = done ++ [{| op := o; target := c |}] /\
            sublist (map target done) before /\
            replay api cloud done = Some cloud' /\
            api cloud' {| op := o; target := c |} = Some why
      | Unorderable => False
      end.
Proof.
  induction todo as [|c rest IH]; intros cloud acc cloud' log out; simpl.
  - intros [= <- <- <-]. exists []. rewrite app_nil_r. repeat split. constructor.
  - destruct (needed cloud c) as [o|] eqn:Hn.
    + destruct (api cloud {| op := o; target := c |}) as [why|] eqn:Ha.
      * intros [= <- <- <-]. exists [{| op := o; target := c |}]. split; [reflexivity|].
        exists [], c, rest, []. repeat split; [constructor | assumption].
      * intros H. destruct (IH _ _ _ _ _ H) as (new & -> & Hout).
        exists ({| op := o; target := c |} :: new).
        split; [now rewrite <- app_assoc|].
        destruct out as [|name o' why|]; [| |contradiction].
        -- destruct Hout as [Hr Hs]. simpl. rewrite Ha. split; [assumption|].
           now constructor.
        -- destruct Hout as (before & c0 & after & done & -> & Hid & -> & Hs & Hr & Hf).
           exists (c :: before), c0, after, ({| op := o; target := c |} :: done).
           repeat split; try assumption; [now constructor|].
           simpl. now rewrite Ha.
    + intros H. destruct (IH _ _ _ _ _ H) as (new & -> & Hout).
      exists new. split; [reflexivity|].
      destruct out as [|name o' why|]; [| |contradiction].
      * destruct Hout as [Hr Hs]. split; [assumption | now constructor].
      * destruct Hout as (before & c0 & after & done & -> & Hid & -> & Hs & Hr & Hf).
        exists (c :: before), c0, after, done.
        repeat split; try assumption. now constructor.
Qed.

Lemma needed_None (cloud : Cloud) (c : Construct) :
  needed cloud c = None <-> cloud !! id c = Some c.
Proof.
  unfold needed. destruct (cloud !! id c) as [held|]; [|split; discriminate].
  destruct (decide (held = c)) as [-> | Hne]; split; try discriminate; try reflexivity.
  intros [= ->]. contradiction.
Qed.

(** A resource the service holds unchanged is passed over. *)
Lemma submit_nothing (api : Api) (todo : list Construct) (cloud : Cloud) (acc : list Call) :
  (forall c, In c todo -> cloud !! id c = Some c) ->
  submit api todo cloud acc = (cloud, acc, Applied).
Proof.
  induction todo as [|c rest IH]; intros H; simpl; [reflexivity|].
  assert (needed cloud c = None) as -> by (apply needed_None, H; now left).
  apply IH. intros c' Hc'. apply H. now right.
Qed.

(** After a pass that went through, the service holds every resource of the
    sequence as submitted, and what it held under other names is untouched. *)
Lemma submit_holds (api : Api) (todo : list Construct) :
  forall cloud acc cloud' log,
    NoDup (ids todo) ->
    submit api todo cloud acc = (cloud', log, Applied) ->
    (forall c, In c todo -> cloud' !! id c = Some c) /\
    (forall name, ~ In name (ids todo) -> cloud' !! name = cloud !! name).
Proof.
  induction todo as [|c rest IH]; intros cloud acc cloud' log Hnd; simpl.
  - intros [= <- <-]. split; [intros c [] | reflexivity].
  - apply NoDup_cons in Hnd as [Hc Hnd]. rewrite list_elem_of_In in Hc.
    destruct (needed cloud c) as [o|] eqn:Hn.
    + destruct (api cloud {| op := o; target := c |}); [discriminate|].
      intros H. destruct (IH _ _ _ _ Hnd H) as [Hin Hout]. split.
      * intros c' [<- | Hc']; [|now apply Hin].
        rewrite (Hout _ Hc). apply lookup_insert_eq.
      * intros name Hname. rewrite Hout by tauto.
        apply lookup_insert_ne. intros E. apply Hname. now left.
    + intros H. destruct (IH _ _ _ _ Hnd H) as [Hin Hout]. split.
      * intros c' [<- | Hc']; [|now apply Hin].
        rewrite (Hout _ Hc). now apply needed_None.
      * intros name Hname. apply Hout. tauto.
Qed.

(** Each call of a pass is the one the state before the pass asks for: a
    creation for a name the service did not hold, an update for a resource it
    held with other properties. *)
Lemma submit_calls (api : Api) (todo : list Construct) :
  forall cloud acc cloud' log out,
    NoDup (ids todo) ->
    submit api todo cloud acc = (cloud', log, out) ->
    exists new, log = acc ++ new /\
      forall k, In k new -> In (target k) todo /\ needed cloud (target k) = Some (op k).
Proof.
  induction todo as [|c rest IH]; intros cloud acc cloud' log out Hnd; simpl.
  - intros [= <- <- <-]. exists []. rewrite app_nil_r. split; [reflexivity | intros k []].
  - apply NoDup_cons in Hnd as [Hc Hnd]. rewrite list_elem_of_In in Hc.
    destruct (needed cloud c) as [o|] eqn:Hn.
    + destruct (api cloud {| op := o; target := c |}) as [why|].
      * intros [= <- <- <-]. exists [{| op := o; target := c |}]. split; [reflexivity|].
        intros k [<- | []]. split; [now left | assumption].
      * intros H. destruct (IH _ _ _ _ _ Hnd H) as (new & -> & Hk).
        exists ({| op := o; target := c |} :: new). split; [now rewrite <- app_assoc|].
        intros k [<- | Hin]; [split; [now left | assumption]|].
        destruct (Hk k Hin) as [Ht Hneed]. split; [now right|].
        rewrite <- Hneed. unfold needed. rewrite lookup_insert_ne; [reflexivity|].
        intros E. apply Hc. rewrite E. now apply in_map.
    + intros H. destruct (IH _ _ _ _ _ Hnd H) as (new & -> & Hk).
      exists new. split; [reflexivity|].
      intros k Hin. destruct (Hk k Hin). split; [now right | assumption].
Qed.

End SubmitFacts.

Module ApplierFacts.
Import JS Node CDK Infra Closed Applier OrderFacts SubmitFacts.

Lemma descriptor_built (w : World) (v : Value) :
  descriptor (built w v)
  = [webSg w; myWebAppRepo; deployDockerImage w v; ebInstanceRole; ebInstanceProfile;
     myEBApp; myAppVersion w v; myEBEnv w v].
Proof. reflexivity. Qed.

Lemma ids_descriptor (w : World) (v : Value) : ids (descriptor (built w v)) = declared.
Proof. reflexivity. Qed.

Lemma NoDup_declared : NoDup declared.
Proof. apply (bool_decide_unpack _). vm_compute. exact I. Qed.

Lemma grounded_descriptor (w : World) (v : Value) :
  Grounded rank (descriptor (built w v)) [].
Proof. apply groundedb_Grounded. reflexivity. Qed.

(** C6. For the descriptor of any stack the builder produces, given in any
    order, the topological sort succeeds, reorders nothing away, and places
    the IdentityRole, the NetworkRule (security group) and the
    ImageRepository strictly before the ComputeEnvironment. *)
Theorem dependencies_precede_the_environment
  (props : StackProps) (w : World) (st : Stack) (input : list Construct) :
  build props w = Ok st ->
  Permutation input (descriptor st) ->
  exists o,
    creationOrder input = Some o /\
    Permutation o input /\
    precedes "EBInstanceRole" "MyEBEnv" (ids o) /\
    precedes "WebSg" "MyEBEnv" (ids o) /\
    precedes "MyWebAppRepo" "MyEBEnv" (ids o).
Proof.
  intros H Hperm.
  destruct (InfraFacts.build_Ok _ _ _ H) as (a & r & v & _ & _ & _ & ->).
  destruct (creationOrder_total rank input) as [o Ho].
  { apply (Grounded_perm rank (descriptor (built w v))); [now symmetry|].
    apply grounded_descriptor. }
  exists o. split; [assumption|].
  apply creationOrder_sound in Ho as [HO Hp]. split; [assumption|].
  assert (Permutation o (descriptor (built w v))) as Hall by now rewrite Hp.
  assert (forall c, In c (descriptor (built w v)) -> In c o) as Hin.
  { intros c. apply Permutation_in. now symmetry. }
  assert (NoDup (ids o)) as Hnd.
  { assert (Permutation (ids o) declared) as ->; [|apply NoDup_declared].
    rewrite <- (ids_descriptor w v). unfold ids. now apply Permutation_map. }
  rewrite descriptor_built in Hin.
  assert (In (myEBEnv w v) o) as Henv by (apply Hin; simpl; tauto).
  assert (In ebInstanceProfile o) as Hprof by (apply Hin; simpl; tauto).
  split; [|split].
  - apply (precedes_trans _ "EBInstanceProfile"); [assumption| |].
    + apply (Ordered_precedes o ebInstanceProfile); [assumption..|]. simpl; tauto.
    + apply (Ordered_precedes o (myEBEnv w v)); [assumption..|]. simpl; tauto.
  - apply (Ordered_precedes o (myEBEnv w v)); [assumption..|]. simpl; tauto.
  - apply (Ordered_precedes o (myEBEnv w v)); [assumption..|]. simpl; tauto.
Qed.

Lemma dependencies_precede_the_environment_witness :
  build Sample.props (Sample.release "1.0.0") = Ok (Sample.stack "1.0.0") /\
  Permutation (rev (descriptor (Sample.stack "1.0.0"))) (descriptor (Sample.stack "1.0.0")) /\
  exists o,
    creationOrder (rev (descriptor (Sample.stack "1.0.0"))) = Some o /\
    Permutation o (rev (descriptor (Sample.stack "1.0.0"))) /\
    precedes "EBInstanceRole" "MyEBEnv" (ids o) /\
    precedes "WebSg" "MyEBEnv" (ids o) /\
    precedes "MyWebAppRepo" "MyEBEnv" (ids o).
Proof.
  split; [vm_compute; reflexivity|].
  split; [symmetry; apply Permutation_rev|].
  apply (dependencies_precede_the_environment
           Sample.props (Sample.release "1.0.0") (Sample.stack "1.0.0")).
  - vm_compute; reflexivity.
  - symmetry; apply Permutation_rev.
Defined.

Lemma apply_Applied (api : Api) (d : list Construct) (cloud cloud' : Cloud) (log : list Call) :
  NoDup (ids d) ->
  apply api d cloud = (cloud', log, Applied) ->
  exists o, creationOrder d = Some o /\ Permutation o d /\
            forall c, In c d -> cloud' !! id c = Some c.
Proof.
  unfold apply. intros Hnd H.
  destruct (creationOrder d) as [o|] eqn:Ho; [|discriminate].
  exists o. split; [reflexivity|].
  destruct (creationOrder_sound _ _ Ho) as [_ Hp]. split; [assumption|].
  assert (NoDup (ids o)) as Hndo.
  { assert (Permutation (ids o) (ids d)) as ->; [|assumption]. now apply Permutation_map. }
  destruct (submit_holds _ _ _ _ _ _ Hndo H) as [Hin _].
  intros c Hc. apply Hin. apply (Permutation_in _ (Permutation_sym Hp) Hc).
Qed.

(** Applying a descriptor the service holds already issues no call. *)
Lemma apply_idempotent (api : Api) (d : list Construct) (cloud cloud' : Cloud)
  (log : list Call) :
  NoDup (ids d) ->
  apply api d cloud = (cloud', log, Applied) ->
  apply api d cloud' = (cloud', [], Applied).
Proof.
  intros Hnd H. destruct (apply_Applied _ _ _ _ _ Hnd H) as (o & Ho & Hp & Hin).
  unfold apply. rewrite Ho. apply submit_nothing.
  intros c Hc. apply Hin. apply (Permutation_in _ Hp Hc).
Qed.

Lemma NoDup_descriptor (w : World) (v : Value) : NoDup (ids (descriptor (built w v))).
Proof. rewrite ids_descriptor. apply NoDup_declared. Qed.

Lemma needed_held (cloud : Cloud) (held c : Construct) :
  cloud !! id c = Some held ->
  needed cloud c = if decide (held = c) then None else Some Update.
Proof. unfold needed. now intros ->. Qed.

(** The stack depends on the world only through the directory, the VPC and
    the staged assets, and on the version only through its rendering. *)
Lemma built_ext (w w' : World) (v v' : Value) :
  dirname w' = dirname w -> defaultVpc w' = defaultVpc w -> staging w' = staging w ->
  ToString v' = ToString v ->
  built w' v' = built w v.
Proof.
  intros Hd Hv Hs Ht.
  unfold built, webSg, deployDockerImage, myAppVersion, myEBEnv, imageRef.
  now rewrite Hd, Hv, Hs, Ht.
Qed.






End ApplierFacts.

Module TeardownFacts.
Import JS Node CDK Infra Closed Descriptor.

Lemma destroy_built (w : World) (v : Value) (reg : Aws.Registry) :
  Aws.destroy (built w v) reg = delete "dbbsoftt-repo" reg.
Proof. reflexivity. Qed.




End TeardownFacts.

(** ** What [JSON.stringify] writes, [JSON.parse] reads back *)

Module JsonRoundTrip.
Import JS.

(** Reading back one escaped character. *)
Lemma parseChars_escapeChar (c : ascii) (rest acc : string) :
  parseChars (escapeChar c +:+ rest) acc = parseChars rest (acc +:+ String c EmptyString).
Proof.
  destruct c as [[] [] [] [] [] [] [] []]; reflexivity.
Qed.

Lemma parseChars_escapeChars (s : string) : forall rest acc,
  parseChars (escapeChars s +:+ String (ascii_of_nat 34) rest) acc = Some (acc +:+ s, rest).
Proof.
  induction s as [|c s IH]; intros rest acc.
  - change (escapeChars "" +:+ String (ascii_of_nat 34) rest) with (String (ascii_of_nat 34) rest).
    rewrite Strings.append_nil_r. reflexivity.
  - change (escapeChars (String c s)) with (escapeChar c +:+ escapeChars s).
    rewrite Strings.append_assoc, parseChars_escapeChar, IH.
    now rewrite Strings.append_assoc.
Qed.

(** A result found with some fuel is found with more. *)
Lemma parse_more f :
  (forall s r, parseValue f s = Some r -> parseValue (S f) s = Some r) /\
  (forall s acc r, parseElements f s acc = Some r -> parseElements (S f) s acc = Some r) /\
  (forall s acc r, parseMembers f s acc = Some r -> parseMembers (S f) s acc = Some r).
Proof.
  induction f as [|f (IHv & IHe & IHm)]; [repeat split; intros; discriminate|].
  repeat split.
  - intros s r. cbn [parseValue].
    destruct (skipWs s) as [|c t]; [discriminate|].
    destruct (isChar 123 c).
    { destruct (skipWs t) as [|c' t'] eqn:E'; [discriminate|]. rewrite <- E' in *.
      destruct (isChar 125 c'); [tauto|]. apply IHm. }
    destruct (isChar 91 c); [|tauto].
    destruct (skipWs t) as [|c' t'] eqn:E'; [discriminate|]. rewrite <- E' in *.
    destruct (isChar 93 c'); [tauto|]. apply IHe.
  - intros s acc r. cbn [parseElements].
    destruct (parseValue f s) as [[x t]|] eqn:E; [|discriminate].
    rewrite (IHv _ _ E).
    destruct (skipWs t) as [|c t']; [discriminate|].
    destruct (isChar 44 c); [apply IHe | tauto].
  - intros s acc r. cbn [parseMembers].
    destruct (skipWs s) as [|q t]; [discriminate|].
    destruct (isChar 34 q); [|discriminate].
    destruct (parseChars t "") as [[key r1]|]; [|discriminate].
    destruct (skipWs r1) as [|c r2]; [discriminate|].
    destruct (isChar 58 c); [|discriminate].
    destruct (parseValue f r2) as [[x r3]|] eqn:E3; [|discriminate].
    rewrite (IHv _ _ E3).
    destruct (skipWs r3) as [|d r4]; [discriminate|].
    destruct (isChar 44 d); [apply IHm | tauto].
Qed.

Lemma parseValue_more (f extra : nat) (s : string) r :
  parseValue f s = Some r -> parseValue (f + extra) s = Some r.
Proof.
  intros H. induction extra as [|n IH]; [now rewrite Nat.add_0_r|].
  rewrite Nat.add_succ_r. now apply (proj1 (parse_more _)).
Qed.

Lemma JSON_parse_with (f : nat) (text : string) (v : Value) :
  parseValue f text = Some (v, "") -> JSON_parse text = Ok v.
Proof.
  intros H. unfold JSON_parse.
  destruct (le_lt_dec f (2 * String.length text + 2)) as [Hle | Hlt].
  - replace (2 * String.length text + 2) with (f + (2 * String.length text + 2 - f)) by lia.
    now rewrite (parseValue_more _ _ _ _ H).
  - rewrite <- (JsonFacts.parseValue_enough text (f - (2 * String.length text + 2))).
    replace (2 * String.length text + 2 + (f - (2 * String.length text + 2))) with f by lia.
    now rewrite H.
Qed.

Lemma parseValue_string (f : nat) (s v rest : string) :
  parseChars s "" = Some (v, rest) ->
  parseValue (S f) (String (ascii_of_nat 34) s) = Some (Str v, rest).
Proof. intros H. cbn [parseValue]. change (skipWs (String (ascii_of_nat 34) s)) with (String (ascii_of_nat 34) s).
  change (isChar 123 (ascii_of_nat 34)) with false. change (isChar 91 (ascii_of_nat 34)) with false.
  change (isChar 34 (ascii_of_nat 34)) with true. cbv iota. now rewrite H. Qed.

Lemma parseValue_object (f : nat) (s : string) r :
  parseMembers f (String (ascii_of_nat 34) s) [] = r ->
  parseValue (S f) (String "{" (String (ascii_of_nat 34) s)) = r.
Proof. intros <-. reflexivity. Qed.

Lemma parseMembers_next (f : nat) (s key s2 s4 : string) (x : Value) acc r :
  parseChars s "" = Some (key, String ":" s2) ->
  parseValue f s2 = Some (x, String "," s4) ->
  parseMembers f s4 (setProp key x acc) = r ->
  parseMembers (S f) (String (ascii_of_nat 34) s) acc = r.
Proof.
  intros Hk Hv <-. cbn [parseMembers]. change (skipWs (String (ascii_of_nat 34) s)) with (String (ascii_of_nat 34) s).
  change (isChar 34 (ascii_of_nat 34)) with true. cbv iota. rewrite Hk.
  change (skipWs (String ":" s2)) with (String ":"%char s2).
  change (isChar 58 ":") with true. cbv iota. rewrite Hv.
  reflexivity.
Qed.

Lemma parseMembers_last (f : nat) (s key s2 rest : string) (x : Value) acc r :
  parseChars s "" = Some (key, String ":" s2) ->
  parseValue f s2 = Some (x, String "}" rest) ->
  Some (Object (setProp key x acc), rest) = r ->
  parseMembers (S f) (String (ascii_of_nat 34) s) acc = r.
Proof.
  intros Hk Hv <-. cbn [parseMembers]. change (skipWs (String (ascii_of_nat 34) s)) with (String (ascii_of_nat 34) s).
  change (isChar 34 (ascii_of_nat 34)) with true. cbv iota. rewrite Hk.
  change (skipWs (String ":" s2)) with (String ":"%char s2).
  change (isChar 58 ":") with true. cbv iota. rewrite Hv.
  reflexivity.
Qed.

Lemma health_body_parses (v : string) :
  JSON_parse ("{" +:+ joinWith "," [quoteJSON "status" +:+ ":" +:+ quoteJSON "healthy";
                                     quoteJSON "version" +:+ ":" +:+ quoteJSON v] +:+ "}")
  = Ok (Object [("status", Str "healthy"); ("version", Str v)]).
Proof.
  apply (JSON_parse_with 4).
  cbn [joinWith fold_left]. unfold quoteJSON at 4.
  rewrite !Strings.append_assoc.
  set (tail := escapeChars v +:+ dq +:+ "}").
  assert (parseChars tail "" = Some (v, "}")) as Ht by apply parseChars_escapeChars.
  clearbody tail.
  apply parseValue_object.
  eapply parseMembers_next; [reflexivity | apply parseValue_string; reflexivity |].
  eapply parseMembers_last; [reflexivity | apply parseValue_string; exact Ht |].
  reflexivity.
Qed.

End JsonRoundTrip.

Module ServerExtras.
Import JS Node Server Linked.

Lemma verbMatches_GET (m : Method) :
  verbMatches GET m = true <-> m = GET \/ m = HEAD.
Proof.
  destruct m; vm_compute; split; intros H; try tauto; try discriminate;
    destruct H as [H | H]; discriminate.
Qed.

Lemma root_route (fs : FileSystem) (dir : Path) (VERSION : Value) (app : App) (req : Request) :
  server fs dir = Ok (VERSION, app) ->
  method req = GET -> path req = "/" ->
  dispatch app req
  = Some (res_send ("Craneodev test app for DBB Software. The app is running. Version: "
                    +:+ ToString VERSION)).
Proof.
  intros H Hm Hp. destruct (ServerFacts.server_Ok _ _ _ _ H) as [Hr _].
  unfold dispatch. rewrite Hr, Hm, Hp. reflexivity.
Qed.



(** X2. The application has no other route: none of its handlers answers a
    request exactly when the method is neither GET nor HEAD, or the path is
    neither [/health] nor [/] (letter case and one trailing slash aside). *)
Theorem unrouted_requests (fs : FileSystem) (dir : Path) (VERSION : Value) (app : App)
  (req : Request) :
  server fs dir = Ok (VERSION, app) ->
  dispatch app req = None <->
  (method req <> GET /\ method req <> HEAD) \/
  (pathMatches "/health" (path req) = false /\ pathMatches "/" (path req) = false).
Proof.
  intros H. destruct (ServerFacts.server_Ok _ _ _ _ H) as [Hr _].
  unfold dispatch. rewrite Hr. cbn [find verb pattern].
  pose proof (verbMatches_GET (method req)) as Hv.
  destruct (verbMatches GET (method req)); cbn [andb].
  - assert (method req = GET \/ method req = HEAD) as Hm by now apply Hv.
    destruct (pathMatches "/health" (path req));
      [split; [discriminate | intros [[? ?]|[? ?]]; [tauto | discriminate]]|].
    destruct (pathMatches "/" (path req));
      [split; [discriminate | intros [[? ?]|[? ?]]; [tauto | discriminate]]|].
    split; [intros _; now right | reflexivity].
  - split; [|reflexivity]. intros _. left.
    split; intros E; assert (false = true) as F by (apply Hv; tauto); discriminate F.
Qed.

Lemma unrouted_requests_witness :
  exists app,
    server Sample.host ["srv"] = Ok (Str "2.0.0", app) /\
    (dispatch app Sample.probe = None <->
     (method Sample.probe <> GET /\ method Sample.probe <> HEAD) \/
     (pathMatches "/health" (path Sample.probe) = false /\
      pathMatches "/" (path Sample.probe) = false)).
Proof.
  eexists. split; [vm_compute; reflexivity|].
  eapply (unrouted_requests Sample.host ["srv"] (Str "2.0.0") _ Sample.probe).
  vm_compute; reflexivity.
Defined.






End ServerExtras.

Module InfraExtras.
Import JS Node CDK Infra Closed Descriptor Linked.

(** *** Paths *)

Lemma normalize_snoc (x : string) :
  plain x = true ->
  forall segs done, normalize (segs ++ [x]) done = normalize segs done ++ [x].
Proof.
  intros Hx. unfold plain in Hx. apply negb_true_iff in Hx.
  apply orb_false_iff in Hx as [Hx H3]. apply orb_false_iff in Hx as [H1 H2].
  induction segs as [|s r IH]; intros done.
  - cbn [app normalize]. rewrite H1, H2, H3. cbn [orb rev]. reflexivity.
  - cbn [app normalize].
    destruct (String.eqb s ".."); [apply IH|].
    destruct (String.eqb s "." || String.eqb s ""); apply IH.
Qed.

Lemma normalize_plain (segs : list string) :
  forallb plain segs = true ->
  forall rest done, normalize (segs ++ rest) done = normalize rest (rev segs ++ done).
Proof.
  induction segs as [|s r IH]; intros H rest done; [reflexivity|].
  cbn [forallb] in H. apply andb_true_iff in H as [Hs Hr].
  unfold plain in Hs. apply negb_true_iff in Hs.
  apply orb_false_iff in Hs as [Hs H3]. apply orb_false_iff in Hs as [H1 H2].
  cbn [app normalize]. rewrite H1, H2, H3. cbn [orb].
  rewrite (IH Hr). cbn [rev]. now rewrite <- app_assoc.
Qed.

(** X6. The manifest the constructor reads is the [package.json] of the very
    directory it gives to the image asset and to the source bundle: the
    version comes from the application that is built and deployed. *)
Theorem manifest_is_in_the_deployed_directory (props : StackProps) (w : World) (st : Stack) :
  build props w = Ok st ->
  exists appDir,
    assetDirectories st = [appDir; appDir] /\
    manifestPath w = appDir ++ ["package.json"].
Proof.
  intros H. destruct (InfraFacts.build_Ok _ _ _ H) as (a & r & v & _ & _ & _ & ->).
  exists (path_join (dirname w) [".."; "app"]). split; [reflexivity|].
  unfold manifestPath, path_join.
  change (dirname w ++ [".."; "app"; "package.json"])
    with (dirname w ++ [".."; "app"] ++ ["package.json"]).
  rewrite app_assoc. now apply normalize_snoc.
Qed.

Lemma manifest_is_in_the_deployed_directory_witness :
  build Sample.props (Sample.release "1.0.0") = Ok (Sample.stack "1.0.0") /\
  exists appDir,
    assetDirectories (Sample.stack "1.0.0") = [appDir; appDir] /\
    manifestPath (Sample.release "1.0.0") = appDir ++ ["package.json"].
Proof.
  split; [vm_compute; reflexivity|].
  apply (manifest_is_in_the_deployed_directory Sample.props (Sample.release "1.0.0")).
  vm_compute; reflexivity.
Defined.

(** X7. When the module directory of the stack is a directory [lib] (any
    name) under a root, both free of dot segments, the manifest is read from
    [app/package.json] under that root. *)
Theorem manifest_path_beside_the_module (w : World) (root : Path) (lib : string) :
  forallb plain (root ++ [lib]) = true ->
  dirname w = root ++ [lib] ->
  manifestPath w = root ++ ["app"; "package.json"].
Proof.
  intros Hp Hd. unfold manifestPath, path_join. rewrite Hd.
  rewrite (normalize_plain _ Hp). rewrite rev_app_distr. cbn [rev app normalize].
  change (String.eqb ".." "..") with true. cbv iota. cbn [tl].
  change (String.eqb "app" "..") with false.
  change (String.eqb "app" "." || String.eqb "app" "") with false.
  change (String.eqb "package.json" "..") with false.
  change (String.eqb "package.json" "." || String.eqb "package.json" "") with false.
  cbv iota. cbn [normalize rev app]. rewrite app_nil_r, rev_involutive.
  now rewrite <- app_assoc.
Qed.

Lemma manifest_path_beside_the_module_witness :
  forallb plain (["repo"] ++ ["lib"]) = true /\
  dirname (Sample.release "1.0.0") = ["repo"] ++ ["lib"] /\
  manifestPath (Sample.release "1.0.0") = ["repo"] ++ ["app"; "package.json"].
Proof.
  split; [reflexivity|]. split; [reflexivity|].
  apply (manifest_path_beside_the_module (Sample.release "1.0.0") ["repo"] "lib");
    reflexivity.
Defined.

(** *** Outcomes of the constructor *)



(** X9. Without an account or without a region the constructor throws at
    the VPC lookup, its first statement, whatever the files hold: the
    manifest is not even read. *)
Theorem lookup_is_refused_first (props : StackProps) (w : World) :
  account props = None \/ region props = None ->
  build props w = Throw lookupRefused /\
  forall w', build props w' = build props w.
Proof.
  intros H. assert (forall x, build props x = Throw lookupRefused) as Hall.
  { intros x. rewrite InfraFacts.build_eq.
    destruct H as [-> | ->]; [reflexivity|]. now destruct (account props). }
  split; [apply Hall|]. intros w'. now rewrite !Hall.
Qed.

Lemma lookup_is_refused_first_witness :
  (account Cases.noAccount = None \/ region Cases.noAccount = None) /\
  build Cases.noAccount (Sample.release "1.0.0") = Throw lookupRefused /\
  forall w', build Cases.noAccount w' = build Cases.noAccount (Sample.release "1.0.0").
Proof.
  split; [left; reflexivity|].
  apply (lookup_is_refused_first Cases.noAccount (Sample.release "1.0.0")).
  left; reflexivity.
Defined.



(** *** The stack is linked *)

Lemma declaredBefore_sound (l : list Construct) :
  forall seen, declaredBefore seen l = true ->
  forall before c after, l = before ++ c :: after ->
  forall d, In d (Applier.deps c) -> In d (seen ++ map id before).
Proof.
  induction l as [|x r IH]; intros seen H before c after E d Hd.
  - destruct before; discriminate.
  - cbn [declaredBefore] in H. apply andb_true_iff in H as [Hx Hr].
    destruct before as [|b before]; cbn [app] in E; injection E as -> ->.
    + cbn [map]. rewrite app_nil_r.
      rewrite forallb_forall in Hx. specialize (Hx d Hd).
      apply existsb_exists in Hx as (y & Hy & Heq).
      apply String.eqb_eq in Heq. now subst.
    + specialize (IH _ Hr before c after eq_refl d Hd).
      cbn [map]. now rewrite <- app_assoc in IH.
Qed.



(** X12. The environment is placed in the VPC that was looked up, on its
    public subnets, and the security group attached to it was created in
    that same VPC. *)
Theorem environment_and_security_group_share_the_vpc
  (props : StackProps) (w : World) (st : Stack) :
  build props w = Ok st ->
  exists env ref sg description outbound rules,
    environments st = [env] /\
    optionValue "aws:ec2:vpc" "VPCId" env = Some (lit (vpcId (defaultVpc w))) /\
    optionValue "aws:ec2:vpc" "Subnets" env
    = Some (lit (joinWith "," (map subnetId (publicSubnets (defaultVpc w))))) /\
    optionValue "aws:autoscaling:launchconfiguration" "SecurityGroups" env = Some ref /\
    referent st ref = Some sg /\
    resource sg = SecurityGroup (vpcId (defaultVpc w)) description outbound rules.
Proof.
  intros H. destruct (InfraFacts.build_Ok _ _ _ H) as (a & r & v & _ & _ & _ & ->).
  exists (myEBEnv w v), [GetAtt "WebSg" "GroupId"], (webSg w).
  do 3 eexists. repeat split.
Qed.

Lemma environment_and_security_group_share_the_vpc_witness :
  build Sample.props (Sample.release "1.0.0") = Ok (Sample.stack "1.0.0") /\
  exists env ref sg description outbound rules,
    environments (Sample.stack "1.0.0") = [env] /\
    optionValue "aws:ec2:vpc" "VPCId" env
    = Some (lit (vpcId (defaultVpc (Sample.release "1.0.0")))) /\
    optionValue "aws:ec2:vpc" "Subnets" env
    = Some (lit (joinWith "," (map subnetId
                                   (publicSubnets (defaultVpc (Sample.release "1.0.0")))))) /\
    optionValue "aws:autoscaling:launchconfiguration" "SecurityGroups" env = Some ref /\
    referent (Sample.stack "1.0.0") ref = Some sg /\
    resource sg = SecurityGroup (vpcId (defaultVpc (Sample.release "1.0.0")))
                    description outbound rules.
Proof.
  split; [vm_compute; reflexivity|].
  apply (environment_and_security_group_share_the_vpc
           Sample.props (Sample.release "1.0.0")).
  vm_compute; reflexivity.
Defined.

(** X13. The instance profile given to the environment wraps exactly one
    role; EC2 may assume it, and it carries the two managed policies the
    constructor adds, in the order it adds them: the web tier policy, then
    read access to the container registry. *)
Theorem environment_instances_may_pull_images
  (props : StackProps) (w : World) (st : Stack) :
  build props w = Ok st ->
  exists env profileRef profile roleRef role,
    environments st = [env] /\
    optionValue "aws:autoscaling:launchconfiguration" "IamInstanceProfile" env
    = Some profileRef /\
    referent st profileRef = Some profile /\
    resource profile = CfnInstanceProfile [roleRef] /\
    referent st roleRef = Some role /\
    resource role = Role "ec2.amazonaws.com"
                      ["AWSElasticBeanstalkWebTier"; "AmazonEC2ContainerRegistryReadOnly"].
Proof.
  intros H. destruct (InfraFacts.build_Ok _ _ _ H) as (a & r & v & _ & _ & _ & ->).
  exists (myEBEnv w v), [Ref "EBInstanceProfile"], ebInstanceProfile,
         [Ref "EBInstanceRole"], ebInstanceRole.
  repeat split.
Qed.

Lemma environment_instances_may_pull_images_witness :
  build Sample.props (Sample.release "1.0.0") = Ok (Sample.stack "1.0.0") /\
  exists env profileRef profile roleRef role,
    environments (Sample.stack "1.0.0") = [env] /\
    optionValue "aws:autoscaling:launchconfiguration" "IamInstanceProfile" env
    = Some profileRef /\
    referent (Sample.stack "1.0.0") profileRef = Some profile /\
    resource profile = CfnInstanceProfile [roleRef] /\
    referent (Sample.stack "1.0.0") roleRef = Some role /\
    resource role = Role "ec2.amazonaws.com"
                      ["AWSElasticBeanstalkWebTier"; "AmazonEC2ContainerRegistryReadOnly"].
Proof.
  split; [vm_compute; reflexivity|].
  apply (environment_instances_may_pull_images Sample.props (Sample.release "1.0.0")).
  vm_compute; reflexivity.
Defined.

(** X14. The version the environment deploys is the application version
    the constructor declares: it belongs to the application the environment
    belongs to, is described by the manifest version, takes its bundle from
    the staged source asset, and is created after the application. *)
Theorem environment_deploys_the_declared_version
  (props : StackProps) (w : World) (st : Stack) :
  build props w = Ok st ->
  exists v env name platform label options version application,
    readVersion w = Ok v /\
    environments st = [env] /\
    resource env = CfnEnvironment "DbbSoftEnv" name platform label options /\
    referent st label = Some version /\
    resource version
    = CfnApplicationVersion name (lit (s3BucketName (staging w)))
        (lit (s3ObjectKey (staging w))) ("Version " +:+ ToString v) /\
    dependsOn version = [id application] /\
    findChild (id application) (children st) = Some application /\
    resource application = CfnApplication (Some name).
Proof.
  intros H. destruct (InfraFacts.build_Ok _ _ _ H) as (a & r & v & _ & _ & Hv & ->).
  exists v, (myEBEnv w v), "DbbSoft", "64bit Amazon Linux 2023 v4.8.0 running Docker",
         [Ref "MyAppVersion"]. eexists. exists (myAppVersion w v), myEBApp.
  repeat split. assumption.
Qed.

Lemma environment_deploys_the_declared_version_witness :
  build Sample.props (Sample.release "1.0.0") = Ok (Sample.stack "1.0.0") /\
  exists v env name platform label options version application,
    readVersion (Sample.release "1.0.0") = Ok v /\
    environments (Sample.stack "1.0.0") = [env] /\
    resource env = CfnEnvironment "DbbSoftEnv" name platform label options /\
    referent (Sample.stack "1.0.0") label = Some version /\
    resource version
    = CfnApplicationVersion name (lit (s3BucketName (staging (Sample.release "1.0.0"))))
        (lit (s3ObjectKey (staging (Sample.release "1.0.0")))) ("Version " +:+ ToString v) /\
    dependsOn version = [id application] /\
    findChild (id application) (children (Sample.stack "1.0.0")) = Some application /\
    resource application = CfnApplication (Some name).
Proof.
  split; [vm_compute; reflexivity|].
  apply (environment_deploys_the_declared_version Sample.props (Sample.release "1.0.0")).
  vm_compute; reflexivity.
Defined.

(** *** The stack and the server read the same manifest *)



End InfraExtras.
